(** * The swipe-card interaction model of rapid-studio

    A shallow embedding of the card-swipe components of the mobile
    application:

    - the tiered [SwipeDeck] component (gesture handlers, rating batch,
      prefetch effect and low-buffer effect);
    - the [SwipeDeck] and [SafeSwipeDeck] components of
      [rapid-studio-clean/components/SwipeDeck.tsx].

    JavaScript numbers that hold pixel displacements, velocities and
    animation values are modelled as rationals ([Q]): the handlers only
    compare them, take absolute values and interpolate linearly.  Where
    a rounded product decides a branch (the swipe threshold
    [screenWidth * 0.3] of the decks of rapid-studio-clean) the product
    is rounded to binary64 as the code rounds it ([JS.mul]); the product
    [SCREEN_WIDTH * 0.25] of the tiered deck is exact.  Interpolated
    animation values are computed without rounding; about them the
    theorems state only what rounding preserves: signs, bounds, and the
    values at points where every step is exact.  Array
    indices, lengths and millisecond timestamps are integers ([Z]).
    Component state is passed explicitly; every call of a callback of the
    parent or of a platform facility is recorded as an [Event]. *)

From Stdlib Require Import List ZArith QArith Qabs Qminmax Qround Qfield Lia Lqa Bool String.
From Stdlib Require Import Sorted Permutation.
Import ListNotations.

Local Open Scope Z_scope.

(** ** JavaScript primitives used by the components *)

Module JS.

(** [a > b] on numbers. *)
Definition gt (a b : Q) : bool := negb (Qle_bool a b).

(** [arr[i]] for an integer [i]: [undefined] (here [None]) outside the
    array. *)
Definition index {A : Type} (arr : list A) (i : Z) : option A :=
  if i <? 0 then None else nth_error arr (Z.to_nat i).

(** [arr.length]. *)
Definition length {A : Type} (arr : list A) : Z := Z.of_nat (List.length arr).

(** [arr.slice(start, end)] for integer arguments: a negative argument
    counts from the end of the array, both are then confined to
    [0 .. length], and an empty array results when the end does not
    exceed the start. *)
Definition relative (len i : Z) : Z :=
  if i <? 0 then Z.max (len + i) 0 else Z.min i len.

Definition slice {A : Type} (arr : list A) (start end_ : Z) : list A :=
  let len := length arr in
  let k := relative len start in
  let final := relative len end_ in
  let count := Z.max (final - k) 0 in
  firstn (Z.to_nat count) (skipn (Z.to_nat k) arr).

(** [arr.sort(cmp)].  ECMAScript requires the sort to be stable; for a
    consistent comparator the result is then determined, and it is the
    one a stable insertion sort computes: an element is placed before
    the first element it does not compare greater than. *)
Section Sort.
Context {A : Type} (cmp : A -> A -> Z).

Fixpoint insert (a : A) (sorted : list A) : list A :=
  match sorted with
  | [] => [a]
  | b :: rest => if cmp a b <=? 0 then a :: b :: rest else b :: insert a rest
  end.

Fixpoint sort (arr : list A) : list A :=
  match arr with
  | [] => []
  | a :: rest => insert a (sort rest)
  end.
End Sort.

(** Binary64 arithmetic.  [double q] is the IEEE 754 double nearest to
    [q], ties to the even significand, subnormals included; magnitudes of
    2^1024 and more (which round to infinity) are outside the model.
    [binade a] is the exponent [e] with [2^e <= a < 2^(e+1)], for [a > 0];
    [nearestEven a] rounds [a >= 0] to the nearest integer, ties to
    even. *)
Definition pow2 (e : Z) : Q := Qpower 2 e.

Definition binade (a : Q) : Z :=
  let e := Z.log2 (Qnum a) - Z.log2 (Zpos (Qden a)) in
  if Qle_bool (pow2 e) a then e else e - 1.

Definition nearestEven (a : Q) : Z :=
  let f := Qfloor a in
  match Qcompare (a - inject_Z f) (1 # 2) with
  | Lt => f
  | Gt => f + 1
  | Eq => if Z.even f then f else f + 1
  end.

Definition double (q : Q) : Q :=
  if Qeq_bool q 0 then 0%Q
  else
    let a := Qabs q in
    let e := Z.max (binade a) (-1022) in
    let ulp := pow2 (e - 52) in
    let m := nearestEven (a / ulp) in
    Qred ((if Qle_bool 0 q then 1 else -1) * (inject_Z m * ulp)).

(** [a * b] on doubles: the exact product, rounded. *)
Definition mul (a b : Q) : Q := double (a * b).

End JS.

(** ** Animated shared values

    A shared value is assigned either a number or an animation towards a
    number ([withTiming], [withSpring]).  The model stores what was
    assigned; [settled] is the value the shared value holds once the
    assigned animation has run to its end. *)

Inductive Animated : Type :=
| Assign (v : Q)
| withTiming (toValue : Q) (duration : Z)
| withSpring (toValue : Q).

Definition settled (a : Animated) : Q :=
  match a with
  | Assign v => v
  | withTiming v _ => v
  | withSpring v => v
  end.

(** ** Interpolation

    Model of [interpolate] of react-native-reanimated, a dependency of
    the application: the function is piecewise linear through the points
    given by the input and output ranges; outside the input range the
    extrapolation mode decides, and a call that passes no mode
    extrapolates ([Extend]). *)

Module Reanimated.

Local Open Scope Q_scope.

Inductive Extrapolation : Type := Identity | Clamp | Extend.

Record Segment : Type := {
  leftEdgeInput : Q;
  rightEdgeInput : Q;
  leftEdgeOutput : Q;
  rightEdgeOutput : Q
}.

Definition getVal (type : Extrapolation) (coef val leftOut rightOut x : Q) : Q :=
  match type with
  | Identity => x
  | Clamp => if JS.gt (coef * leftOut) (coef * val) then leftOut else rightOut
  | Extend => val
  end.

Definition internalInterpolate (x : Q) (s : Segment) (type : Extrapolation) : Q :=
  if Qeq_bool (rightEdgeInput s - leftEdgeInput s) 0 then leftEdgeOutput s
  else
    let progress := (x - leftEdgeInput s) / (rightEdgeInput s - leftEdgeInput s) in
    let val := leftEdgeOutput s + progress * (rightEdgeOutput s - leftEdgeOutput s) in
    let coef := if Qle_bool (leftEdgeOutput s) (rightEdgeOutput s) then 1 else -1 in
    if JS.gt (coef * leftEdgeOutput s) (coef * val)
    then getVal type coef val (leftEdgeOutput s) (rightEdgeOutput s) x
    else if JS.gt (coef * val) (coef * rightEdgeOutput s)
    then getVal type coef val (leftEdgeOutput s) (rightEdgeOutput s) x
    else val.

(** The segment used for [x]: the first one whose right end is not
    below [x], and the last one when [x] lies beyond every point. *)
Fixpoint narrow (x : Q) (input output : list Q) : option Segment :=
  match input, output with
  | i0 :: ((i1 :: _) as input'), o0 :: ((o1 :: _) as output') =>
      let here := {| leftEdgeInput := i0; rightEdgeInput := i1;
                     leftEdgeOutput := o0; rightEdgeOutput := o1 |} in
      if Qle_bool x i1 then Some here
      else match narrow x input' output' with
           | Some s => Some s
           | None => Some here
           end
  | _, _ => None
  end.

(** Ranges with fewer than two points are rejected by the library; the
    model returns [x] unchanged for them. *)
Definition interpolate (x : Q) (input output : list Q) (type : Extrapolation) : Q :=
  match narrow x input output with
  | Some s => internalInterpolate x s type
  | None => x
  end.

End Reanimated.

(** ** Data model

    [ImageData] leaves out the [metadata] field, which the components
    never read. *)

Inductive Tier : Type := universal | demographic | personal.

Record ImageData : Type := {
  id : string;
  url : string;
  prompt : option string;
  tier : Tier
}.

Inductive Direction : Type := left | right.

Record SwipeRating : Type := {
  imageId : string;
  direction : Direction;
  timestamp : Z;
  swipeVelocity : Q;
  confidence : Q;
  hesitationTime : Z;
  ratingTier : Tier
}.

Inductive ImpactFeedbackStyle : Type := Light | Medium | Heavy.

(** What the component does to the outside: calls of the parent's
    callbacks and of platform facilities, in the order they are made.
    [Decided] records the [SwipeRating] that [handleSwipeComplete]
    constructs and hands to the rating batch. *)
Inductive Event : Type :=
| Prefetch (img : ImageData)
| NeedMoreImages
| Decided (rating : SwipeRating)
| OnSwipe (rating : SwipeRating)
| Impact (style : ImpactFeedbackStyle).

Definition isNeedMoreImages (e : Event) : bool :=
  match e with NeedMoreImages => true | _ => false end.

Definition decisions (evs : list Event) : list SwipeRating :=
  flat_map (fun e => match e with Decided r => [r] | _ => [] end) evs.
Definition flushes (evs : list Event) : list SwipeRating :=
  flat_map (fun e => match e with OnSwipe r => [r] | _ => [] end) evs.
Definition prefetched (evs : list Event) : list ImageData :=
  flat_map (fun e => match e with Prefetch i => [i] | _ => [] end) evs.
Definition signals (evs : list Event) : nat :=
  List.length (filter isNeedMoreImages evs).

(** A pan gesture event. *)
Record PanEvent : Type := {
  translationX : Q;
  translationY : Q;
  velocityX : Q
}.

(** ** The tiered SwipeDeck component *)

Module SwipeDeck.

(** Component state: the [currentIndex] and [ratingBatch] cells, the two
    refs, and the five shared animation values.  The [improvementVisible]
    cell and the effect that raises it after 25 swipes are left out: they
    touch neither the index, the batch, nor the parent's callbacks. *)
Record State : Type := {
  currentIndex : Z;
  ratingBatch : list SwipeRating;
  swipeStartTime : Z;
  totalSwipes : Z;
  translateX : Animated;
  translateY : Animated;
  rotation : Animated;
  scale : Animated;
  backgroundScale : Animated
}.

Definition initial : State := {|
  currentIndex := 0;
  ratingBatch := [];
  swipeStartTime := 0;
  totalSwipes := 0;
  translateX := Assign 0;
  translateY := Assign 0;
  rotation := Assign 0;
  scale := Assign 1;
  backgroundScale := Assign 0.95
|}.

Record Props : Type := {
  images : list ImageData;
  prefetchBuffer : Z
}.

(** *** Effects *)

Definition tierPriority (t : Tier) : Z :=
  match t with
  | personal => 3
  | demographic => 2
  | universal => 1
  end.

(** The prefetch effect: one [Image.prefetch] per element of the sorted
    slice, issued in array order. *)
Definition aggressivePrefetch (p : Props) (currentIndex : Z) : list Event :=
  let start := Z.max 0 currentIndex in
  let end_ := Z.min (JS.length (images p)) (currentIndex + prefetchBuffer p) in
  let imagesToPrefetch :=
    JS.sort (fun a b => tierPriority (tier b) - tierPriority (tier a))
            (JS.slice (images p) start end_) in
  map Prefetch imagesToPrefetch.

(** The low-buffer effect. *)
Definition needMoreEffect (p : Props) (currentIndex : Z) : list Event :=
  if JS.length (images p) - currentIndex <=? 10 then [NeedMoreImages] else [].

(** *** The rating batch *)

(** The updater passed to [setRatingBatch]: the new stored batch and the
    calls of [onSwipe] it makes. *)
Definition setRatingBatch (prev : list SwipeRating) (rating : SwipeRating)
  : list SwipeRating * list Event :=
  let newBatch := prev ++ [rating] in
  if 10 <=? JS.length newBatch then ([], [OnSwipe rating]) else (newBatch, []).

(** The successive updates of the batch by a sequence of ratings. *)
Fixpoint appendAll (batch : list SwipeRating) (ratings : list SwipeRating)
  : list SwipeRating * list Event :=
  match ratings with
  | [] => (batch, [])
  | rating :: rest =>
      let (stored, submitted) := setRatingBatch batch rating in
      let (final, later) := appendAll stored rest in
      (final, submitted ++ later)
  end.

(** *** Handlers *)

Definition handleSwipeStart (now : Z) (st : State) : State := {|
  currentIndex := currentIndex st;
  ratingBatch := ratingBatch st;
  swipeStartTime := now;
  totalSwipes := totalSwipes st;
  translateX := translateX st;
  translateY := translateY st;
  rotation := rotation st;
  scale := scale st;
  backgroundScale := backgroundScale st
|}.

Definition mkRating (currentImage : ImageData) (direction : Direction)
    (velocity : Q) (swipeEndTime hesitationTime : Z) : SwipeRating := {|
  imageId := id currentImage;
  direction := direction;
  timestamp := swipeEndTime;
  swipeVelocity := Qabs velocity;
  confidence := Qmin 1 (Qabs velocity / 1000);
  hesitationTime := hesitationTime;
  ratingTier := tier currentImage
|}.

Definition hapticIntensity (currentImage : ImageData) (direction : Direction)
  : ImpactFeedbackStyle :=
  match tier currentImage with
  | personal => Heavy
  | _ => match direction with right => Light | left => Medium end
  end.

(** [now] is the value [Date.now()] returns in the handler.  The updater
    of the rating batch is applied in place; the events are listed in the
    order of the source text. *)
Definition handleSwipeComplete (p : Props) (direction : Direction)
    (velocity : Q) (now : Z) (st : State) : State * list Event :=
  match JS.index (images p) (currentIndex st) with
  | None => (st, [])
  | Some currentImage =>
      let swipeEndTime := now in
      let hesitationTime := swipeEndTime - swipeStartTime st in
      let rating := mkRating currentImage direction velocity swipeEndTime hesitationTime in
      let (batch, submitted) := setRatingBatch (ratingBatch st) rating in
      ({| currentIndex := currentIndex st + 1;
          ratingBatch := batch;
          swipeStartTime := swipeStartTime st;
          totalSwipes := totalSwipes st + 1;
          translateX := Assign 0;
          translateY := Assign 0;
          rotation := Assign 0;
          scale := Assign 1;
          backgroundScale := Assign 0.95 |},
       Decided rating :: submitted ++ [Impact (hapticIntensity currentImage direction)])
  end.

Section Gesture.

Variable SCREEN_WIDTH : Q.

Definition SWIPE_THRESHOLD : Q := SCREEN_WIDTH * 0.25.

Definition onUpdate (event : PanEvent) (st : State) : State :=
  let progress := (Qabs (translationX event) / SWIPE_THRESHOLD)%Q in
  {| currentIndex := currentIndex st;
     ratingBatch := ratingBatch st;
     swipeStartTime := swipeStartTime st;
     totalSwipes := totalSwipes st;
     translateX := Assign (translationX event);
     translateY := Assign (translationY event * 0.3);
     rotation := Assign (Reanimated.interpolate (translationX event)
                           [- SCREEN_WIDTH; 0; SCREEN_WIDTH]%Q [-30; 0; 30]%Q
                           Reanimated.Extend);
     scale := Assign (Reanimated.interpolate progress [0; 1]%Q [1; 0.95]%Q
                        Reanimated.Extend);
     backgroundScale := Assign (Reanimated.interpolate progress [0; 1]%Q [0.95; 1]%Q
                                  Reanimated.Extend) |}.

Definition onEnd (p : Props) (event : PanEvent) (now : Z) (st : State)
  : State * list Event :=
  let shouldSwipe := JS.gt (Qabs (translationX event)) SWIPE_THRESHOLD in
  if shouldSwipe then
    let direction := if JS.gt (translationX event) 0 then right else left in
    let targetX := match direction with
                   | right => (SCREEN_WIDTH * 1.5)%Q
                   | left => (- SCREEN_WIDTH * 1.5)%Q
                   end in
    let flying := {|
      currentIndex := currentIndex st;
      ratingBatch := ratingBatch st;
      swipeStartTime := swipeStartTime st;
      totalSwipes := totalSwipes st;
      translateX := withTiming targetX 300;
      translateY := withTiming (translationY event * 2) 300;
      rotation := withTiming (match direction with right => 45 | left => -45 end) 300;
      scale := withTiming 0.8 300;
      backgroundScale := withSpring 1 |} in
    handleSwipeComplete p direction (velocityX event) now flying
  else
    ({| currentIndex := currentIndex st;
        ratingBatch := ratingBatch st;
        swipeStartTime := swipeStartTime st;
        totalSwipes := totalSwipes st;
        translateX := withSpring 0;
        translateY := withSpring 0;
        rotation := withSpring 0;
        scale := withSpring 1;
        backgroundScale := withSpring 0.95 |}, []).

(** *** The component over time

    The parent either leaves the props alone or appends a fetched
    batch to [images] (a new array each time); the user drives the
    pan gesture.  Every action is followed by a render, so that the
    handlers of the next action see the current index and props.  After
    the render that follows an action, React
    runs an effect again when one of its dependencies changed: the
    prefetch effect depends on [currentIndex], [images] and
    [prefetchBuffer], the low-buffer effect on [currentIndex],
    [images.length] and the parent's memoised callback. *)

Record Instance : Type := {
  props : Props;
  state : State
}.

Inductive Action : Type :=
| PanBegin (now : Z)
| PanUpdate (event : PanEvent)
| PanEnd (event : PanEvent) (now : Z)
| AppendImages (batch : list ImageData).

Definition mount (p : Props) : Instance * list Event :=
  ({| props := p; state := initial |},
   aggressivePrefetch p (currentIndex initial) ++ needMoreEffect p (currentIndex initial)).

Definition handle (a : Action) (c : Instance) : Instance * list Event :=
  match a with
  | PanBegin now =>
      ({| props := props c; state := handleSwipeStart now (state c) |}, [])
  | PanUpdate event =>
      ({| props := props c; state := onUpdate event (state c) |}, [])
  | PanEnd event now =>
      let (st, evs) := onEnd (props c) event now (state c) in
      ({| props := props c; state := st |}, evs)
  | AppendImages batch =>
      ({| props := {| images := images (props c) ++ batch;
                      prefetchBuffer := prefetchBuffer (props c) |};
          state := state c |}, [])
  end.

Definition newImagesArray (a : Action) : bool :=
  match a with AppendImages _ => true | _ => false end.

Definition runEffects (a : Action) (before after : Instance) : list Event :=
  let indexChanged :=
    negb (currentIndex (state before) =? currentIndex (state after)) in
  let lengthChanged :=
    negb (JS.length (images (props before)) =? JS.length (images (props after))) in
  (if indexChanged || newImagesArray a
   then aggressivePrefetch (props after) (currentIndex (state after)) else [])
  ++
  (if indexChanged || lengthChanged
   then needMoreEffect (props after) (currentIndex (state after)) else []).

Definition step (a : Action) (c : Instance) : Instance * list Event :=
  let (c', evs) := handle a c in
  (c', evs ++ runEffects a c c').

Fixpoint run (actions : list Action) (c : Instance) : Instance * list Event :=
  match actions with
  | [] => (c, [])
  | a :: rest =>
      let (c1, evs1) := step a c in
      let (c2, evs2) := run rest c1 in
      (c2, evs1 ++ evs2)
  end.

End Gesture.

End SwipeDeck.

(** ** The components of rapid-studio-clean *)

Module Clean.

Record ImageData : Type := {
  id : string;
  url : string;
  title : string
}.

(** What these components report: the console line of a committed
    swipe (direction and the identifier of the image at the current
    index, when there is one) and the end-of-deck alert. *)
Inductive Notice : Type :=
| Swiped (direction : Direction) (image : option string)
| EndOfDeck.

Definition sampleImages : list ImageData := [
  {| id := "1"; url := "https://picsum.photos/400/600?random=1"; title := "Sample Image 1" |};
  {| id := "2"; url := "https://picsum.photos/400/600?random=2"; title := "Sample Image 2" |};
  {| id := "3"; url := "https://picsum.photos/400/600?random=3"; title := "Sample Image 3" |};
  {| id := "4"; url := "https://picsum.photos/400/600?random=4"; title := "Sample Image 4" |};
  {| id := "5"; url := "https://picsum.photos/400/600?random=5"; title := "Sample Image 5" |}
]%string.

(** *** SwipeDeck *)

Module SwipeDeck.

Record State : Type := {
  images : list ImageData;
  currentIndex : Z;
  isLoading : bool;
  translateX : Animated;
  translateY : Animated;
  rotate : Animated;
  scale : Animated
}.

(** State after the mount effect has loaded the sample images. *)
Definition loaded : State := {|
  images := sampleImages;
  currentIndex := 0;
  isLoading := false;
  translateX := Assign 0;
  translateY := Assign 0;
  rotate := Assign 0;
  scale := Assign 1
|}.

Definition onSwipeComplete (direction : Direction) (st : State)
  : State * list Notice :=
  let logged := Swiped direction (option_map id (JS.index (images st) (currentIndex st))) in
  if currentIndex st <? JS.length (images st) - 1 then
    ({| images := images st;
        currentIndex := currentIndex st + 1;
        isLoading := isLoading st;
        translateX := Assign 0;
        translateY := Assign 0;
        rotate := Assign 0;
        scale := Assign 1 |}, [logged])
  else
    ({| images := sampleImages;
        currentIndex := 0;
        isLoading := false;
        translateX := Assign 0;
        translateY := Assign 0;
        rotate := Assign 0;
        scale := Assign 1 |}, [logged; EndOfDeck]).

Section Gesture.

Variable screenWidth : Q.

Definition onStart (st : State) : State := {|
  images := images st;
  currentIndex := currentIndex st;
  isLoading := isLoading st;
  translateX := translateX st;
  translateY := translateY st;
  rotate := rotate st;
  scale := withSpring 0.95
|}.

Definition onActive (event : PanEvent) (st : State) : State := {|
  images := images st;
  currentIndex := currentIndex st;
  isLoading := isLoading st;
  translateX := Assign (translationX event);
  translateY := Assign (translationY event);
  rotate := Assign (Reanimated.interpolate (translationX event)
                      [- screenWidth; screenWidth]%Q [-30; 30]%Q
                      Reanimated.Clamp);
  scale := scale st
|}.

Definition onEnd (event : PanEvent) (st : State) : State * list Notice :=
  let shouldSwipe := JS.gt (Qabs (translationX event)) (JS.mul screenWidth (JS.double 0.3)) in
  if shouldSwipe then
    let direction := if JS.gt (translationX event) 0 then right else left in
    let flying := {|
      images := images st;
      currentIndex := currentIndex st;
      isLoading := isLoading st;
      translateX := withTiming (if JS.gt (translationX event) 0
                                then screenWidth * 1.5
                                else - screenWidth * 1.5)%Q 300;
      translateY := withTiming (translationY event) 300;
      rotate := rotate st;
      scale := withTiming 0.8 300 |} in
    onSwipeComplete direction flying
  else
    ({| images := images st;
        currentIndex := currentIndex st;
        isLoading := isLoading st;
        translateX := withSpring 0;
        translateY := withSpring 0;
        rotate := withSpring 0;
        scale := withSpring 1 |}, []).

End Gesture.

End SwipeDeck.

(** *** SafeSwipeDeck *)

Module SafeSwipeDeck.

Record Gesture : Type := {
  dx : Q;
  dy : Q
}.

Record State : Type := {
  currentIndex : Z;
  panX : Animated;
  panY : Animated;
  scale : Animated
}.

Definition images : list ImageData := sampleImages.

Definition initial : State := {|
  currentIndex := 0;
  panX := Assign 0;
  panY := Assign 0;
  scale := Assign 1
|}.

Section Gesture.

Variable screenWidth : Q.

(** The release handler together with the completion callback of
    the fly-off animation it starts. *)
Definition onPanResponderRelease (gesture : Gesture) (st : State)
  : State * list Notice :=
  let swipeThreshold := JS.mul screenWidth (JS.double 0.3) in
  let shouldSwipe := JS.gt (Qabs (dx gesture)) swipeThreshold in
  if shouldSwipe then
    let direction := if JS.gt (dx gesture) 0 then right else left in
    let logged := Swiped direction (option_map id (JS.index images (currentIndex st))) in
    if currentIndex st <? JS.length images - 1 then
      ({| currentIndex := currentIndex st + 1;
          panX := Assign 0;
          panY := Assign 0;
          scale := Assign 1 |}, [logged])
    else
      ({| currentIndex := 0;
          panX := Assign 0;
          panY := Assign 0;
          scale := Assign 1 |}, [logged; EndOfDeck])
  else
    ({| currentIndex := currentIndex st;
        panX := withSpring 0;
        panY := withSpring 0;
        scale := withSpring 1 |}, []).

End Gesture.

End SafeSwipeDeck.

End Clean.

(** ** The lookahead window

    The window of the prefetch policy, stated on deck positions: the
    items whose position [i] in the deck satisfies
    [currentIndex <= i < currentIndex + N]. *)

Fixpoint positioned {A : Type} (from : Z) (deck : list A) : list (Z * A) :=
  match deck with
  | [] => []
  | x :: rest => (from, x) :: positioned (from + 1) rest
  end.

Definition inWindow (lo hi : Z) {A : Type} (entry : Z * A) : bool :=
  (lo <=? fst entry) && (fst entry <? hi).

Definition lookaheadWindow {A : Type} (deck : list A) (currentIndex N : Z) : list A :=
  map snd (filter (inWindow currentIndex (currentIndex + N)) (positioned 0 deck)).

(** The comparator of the prefetch sort. *)
Definition byTier (a b : ImageData) : Z :=
  SwipeDeck.tierPriority (tier b) - SwipeDeck.tierPriority (tier a).

(** The deck items of one tier, in deck order. *)
Definition hasTier (t : Tier) (img : ImageData) : bool :=
  match t, tier img with
  | universal, universal => true
  | demographic, demographic => true
  | personal, personal => true
  | _, _ => false
  end.

Definition ofTier (t : Tier) (deck : list ImageData) : list ImageData :=
  filter (hasTier t) deck.

(** "At least as personalized as": the order of tier ranks. *)
Definition rankedBefore (a b : ImageData) : Prop :=
  SwipeDeck.tierPriority (tier b) <= SwipeDeck.tierPriority (tier a).

(** ** Scenarios *)

Module Scenario.

Definition card (n : nat) (t : Tier) : ImageData := {|
  id := String (Ascii.ascii_of_nat (65 + n)) EmptyString;
  url := String.append "https://cdn.example/" (String (Ascii.ascii_of_nat (65 + n)) EmptyString);
  prompt := None;
  tier := t
|}.

(** A deck of [n] universal cards A, B, C, ... *)
Definition deck (n : nat) : list ImageData :=
  map (fun i => card i universal) (seq 0 n).

Definition mixed : list ImageData :=
  [card 0 universal; card 1 personal; card 2 demographic;
   card 3 personal; card 4 universal].

Definition props (n : nat) : SwipeDeck.Props :=
  {| SwipeDeck.images := deck n; SwipeDeck.prefetchBuffer := 50 |}.

(** A 400 points wide screen: the swipe threshold is 100. *)
Definition width : Q := 400.

Definition drag (dx : Q) : PanEvent :=
  {| translationX := dx; translationY := 12; velocityX := dx * 3 |}.

(** [n] committed swipes to the right, released at times 100, 200, ... *)
Definition swipes (n : nat) : list SwipeDeck.Action :=
  map (fun i => SwipeDeck.PanEnd (drag 200) (100 * Z.of_nat (S i))) (seq 0 n).

Definition mounted (n : nat) : SwipeDeck.Instance := fst (SwipeDeck.mount (props n)).

End Scenario.

(** ** SimpleSwipeDeck

    The deck of [SimpleSwipeDeck.tsx]: three fixed cards, and an index
    that a committed swipe moves on by [(prev + 1) % images.length].
    [%] is the remainder of JavaScript, here [Z.rem]; the threshold is
    the rounded product [screenWidth * 0.3]. *)

Module SimpleSwipeDeck.

Definition images : list Clean.ImageData := [
  {| Clean.id := "1"; Clean.url := "https://picsum.photos/400/600?random=1"; Clean.title := "Sample 1" |};
  {| Clean.id := "2"; Clean.url := "https://picsum.photos/400/600?random=2"; Clean.title := "Sample 2" |};
  {| Clean.id := "3"; Clean.url := "https://picsum.photos/400/600?random=3"; Clean.title := "Sample 3" |}
]%string.

Record State : Type := {
  currentIndex : Z;
  panX : Animated;
  panY : Animated
}.

Definition initial : State := {|
  currentIndex := 0;
  panX := Assign 0;
  panY := Assign 0
|}.

Section Gesture.

Variable screenWidth : Q.

(** The console line of a committed swipe names the title of the current
    card. *)
Definition onPanResponderRelease (gesture : Clean.SafeSwipeDeck.Gesture) (st : State)
  : State * list Clean.Notice :=
  if JS.gt (Qabs (Clean.SafeSwipeDeck.dx gesture)) (JS.mul screenWidth (JS.double 0.3)) then
    let direction := if JS.gt (Clean.SafeSwipeDeck.dx gesture) 0 then right else left in
    ({| currentIndex := Z.rem (currentIndex st + 1) (JS.length images);
        panX := Assign 0;
        panY := Assign 0 |},
     [Clean.Swiped direction (option_map Clean.title (JS.index images (currentIndex st)))])
  else
    ({| currentIndex := currentIndex st;
        panX := withSpring 0;
        panY := withSpring 0 |}, []).

Fixpoint releases (gestures : list Clean.SafeSwipeDeck.Gesture) (st : State) : State :=
  match gestures with
  | [] => st
  | g :: rest => releases rest (fst (onPanResponderRelease g st))
  end.

End Gesture.

End SimpleSwipeDeck.

(** Successive releases on the SafeSwipeDeck. *)
Fixpoint safeReleases (screenWidth : Q) (gestures : list Clean.SafeSwipeDeck.Gesture)
    (st : Clean.SafeSwipeDeck.State) : Clean.SafeSwipeDeck.State :=
  match gestures with
  | [] => st
  | g :: rest =>
      safeReleases screenWidth rest
        (fst (Clean.SafeSwipeDeck.onPanResponderRelease screenWidth g st))
  end.

(** ** The screen that hosts the tiered deck

    [RapidStudioScreen] owns the deck's images.  What the orchestrator
    answers is an input of the model: the outcome of the health check and
    the outcome of each request for images. *)

Module RapidStudioScreen.

Inductive ConnectionStatus : Type := connecting | connected | error.

Record State : Type := {
  images : list ImageData;
  isLoading : bool;
  connectionStatus : ConnectionStatus
}.

Definition initial : State := {|
  images := [];
  isLoading := true;
  connectionStatus := connecting
|}.

(** The health check resolves with [response.ok], resolves without it,
    or is rejected. *)
Inductive HealthResponse : Type := HealthOk | HealthNotOk | HealthRejected.

(** An image as the orchestrator sends it; a missing (falsy) tier is
    [None]. *)
Record RawImage : Type := {
  rawId : string;
  rawUrl : string;
  rawPrompt : option string;
  rawTier : option Tier
}.

(** The request for images is rejected, answers with a status that is
    not ok, answers with a body that is no JSON or has no [images] array,
    or answers with an array of images. *)
Inductive ImagesResponse : Type :=
| Rejected
| HttpError (status : Z)
| InvalidFormat
| Images (raw : list RawImage).

Inductive Notice : Type := ConnectionErrorAlert.

Definition testConnection (response : HealthResponse) (st : State) : State * bool :=
  match response with
  | HealthOk =>
      ({| images := images st; isLoading := isLoading st;
          connectionStatus := connected |}, true)
  | HealthNotOk | HealthRejected =>
      ({| images := images st; isLoading := isLoading st;
          connectionStatus := error |}, false)
  end.

Definition formatImage (img : RawImage) : ImageData := {|
  id := rawId img;
  url := rawUrl img;
  prompt := rawPrompt img;
  tier := match rawTier img with Some t => t | None => universal end
|}.

(** The state while a request is in flight: [setIsLoading(true)]. *)
Definition beginFetch (st : State) : State := {|
  images := images st;
  isLoading := true;
  connectionStatus := connectionStatus st
|}.

(** [fetchImages] once the request has completed: the new state, the
    array the function returns, and the alerts it raised. *)
Definition fetchImages (response : ImagesResponse) (st : State)
  : State * list ImageData * list Notice :=
  let loading := beginFetch st in
  match response with
  | Images raw =>
      let formattedImages := map formatImage raw in
      ({| images := images loading ++ formattedImages;
          isLoading := false;
          connectionStatus := connectionStatus loading |},
       formattedImages, [])
  | Rejected | HttpError _ | InvalidFormat =>
      ({| images := images loading;
          isLoading := false;
          connectionStatus := connectionStatus loading |},
       [], [ConnectionErrorAlert])
  end.

Definition handleNeedMoreImages (response : ImagesResponse) (st : State)
  : State * list Notice :=
  let '(st', _, alerts) := fetchImages response st in (st', alerts).

(** The mount effect: the health check, and a first request only when
    the check succeeded. *)
Definition initialize (health : HealthResponse) (response : ImagesResponse) (st : State)
  : State * list Notice :=
  let (tested, isConnected) := testConnection health st in
  if isConnected then handleNeedMoreImages response tested else (tested, []).

Inductive Screen : Type :=
| LoadingScreen (status : ConnectionStatus)
| ErrorScreen
| DeckScreen (props : SwipeDeck.Props) (isLoading : bool).

Definition render (st : State) : Screen :=
  if isLoading st && (JS.length (images st) =? 0) then
    LoadingScreen (connectionStatus st)
  else if (match connectionStatus st with error => true | _ => false end)
          && (JS.length (images st) =? 0) then
    ErrorScreen
  else
    DeckScreen {| SwipeDeck.images := images st; SwipeDeck.prefetchBuffer := 50 |}
               (isLoading st).

Definition showsDeck (st : State) : bool :=
  match render st with DeckScreen _ _ => true | _ => false end.

(** The deck can ask for more images only while it is rendered: a
    request made while another screen is shown does not happen.  Here
    each request completes before the next is made; requests that
    overlap are modelled by [traffic] below. *)
Fixpoint needMoreCalls (responses : list ImagesResponse) (st : State)
  : State * list Notice :=
  match responses with
  | [] => (st, [])
  | response :: rest =>
      if showsDeck st then
        let (st1, alerts1) := handleNeedMoreImages response st in
        let (st2, alerts2) := needMoreCalls rest st1 in
        (st2, alerts1 ++ alerts2)
      else needMoreCalls rest st
  end.

(** A session: the mount effect, then the deck's requests. *)
Definition session (health : HealthResponse) (first : ImagesResponse)
    (responses : list ImagesResponse) : State * list Notice :=
  let (st1, alerts1) := initialize health first initial in
  let (st2, alerts2) := needMoreCalls responses st1 in
  (st2, alerts1 ++ alerts2).

End RapidStudioScreen.

(** ** More scenarios *)

Module Cases.

Definition swipe (dx : Q) : Clean.SafeSwipeDeck.Gesture :=
  {| Clean.SafeSwipeDeck.dx := dx; Clean.SafeSwipeDeck.dy := 0 |}.

Definition raw (n : nat) (t : option Tier) : RapidStudioScreen.RawImage := {|
  RapidStudioScreen.rawId := String (Ascii.ascii_of_nat (65 + n)) EmptyString;
  RapidStudioScreen.rawUrl := String (Ascii.ascii_of_nat (65 + n)) EmptyString;
  RapidStudioScreen.rawPrompt := None;
  RapidStudioScreen.rawTier := t
|}.

Definition oneCard : RapidStudioScreen.State := {|
  RapidStudioScreen.images := [Scenario.card 0 universal];
  RapidStudioScreen.isLoading := false;
  RapidStudioScreen.connectionStatus := RapidStudioScreen.connected
|}.

End Cases.

(** ** Invariants of the tiered deck *)

(** The Decisions made so far are those for the first [currentIndex]
    cards of the deck. *)
Definition follows (c : SwipeDeck.Instance) (made : list SwipeRating) : Prop :=
  SwipeDeck.currentIndex (SwipeDeck.state c) = JS.length made /\
  SwipeDeck.totalSwipes (SwipeDeck.state c) = JS.length made /\
  JS.length made <= JS.length (SwipeDeck.images (SwipeDeck.props c)) /\
  map imageId made
  = map id (firstn (List.length made) (SwipeDeck.images (SwipeDeck.props c))).

(** The batch is the tail of the Decisions made so far; in front of it
    lie ten Decisions per call of [onSwipe], and the call number [j]
    carried the last Decision of the group number [j]. *)
Definition batched (batch made delivered : list SwipeRating) : Prop :=
  (List.length batch < 10)%nat /\
  (exists gone, made = gone ++ batch /\
                List.length gone = (10 * List.length delivered)%nat) /\
  (forall j, (j < List.length delivered)%nat ->
             nth_error delivered j = nth_error made (10 * j + 9)).

(** An action that keeps the current card: the start of a gesture, a
    gesture update, or a release at or below the swipe threshold. *)
Definition staysOnCard (W : Q) (a : SwipeDeck.Action) : Prop :=
  match a with
  | SwipeDeck.PanBegin _ => True
  | SwipeDeck.PanUpdate _ => True
  | SwipeDeck.PanEnd event _ =>
      (Qabs (translationX event) <= SwipeDeck.SWIPE_THRESHOLD W)%Q
  | SwipeDeck.AppendImages _ => False
  end.

(** What a response adds to the deck, and whether it is a failure. *)
Definition delivered (response : RapidStudioScreen.ImagesResponse) : list ImageData :=
  match response with
  | RapidStudioScreen.Images raw => map RapidStudioScreen.formatImage raw
  | _ => []
  end.

Definition failed (response : RapidStudioScreen.ImagesResponse) : bool :=
  match response with
  | RapidStudioScreen.Images _ => false
  | _ => true
  end.

(** ** Requests that overlap

    [fetchImages] is asynchronous and nothing keeps the deck from asking
    again while a request is in flight.  [Ask] is a call of
    [handleNeedMoreImages] by the deck, possible only while the deck is
    rendered: it sets the loading flag.  [Answer] is the completion of
    one of the requests in flight, in whatever order they complete: it
    appends to the images of that moment (or raises the alert) and
    clears the loading flag.  [pending] counts the requests in flight;
    an answer to no request does not happen. *)

Inductive Traffic : Type :=
| Ask
| Answer (response : RapidStudioScreen.ImagesResponse).

Fixpoint traffic (events : list Traffic) (pending : nat) (st : RapidStudioScreen.State)
  : RapidStudioScreen.State * list RapidStudioScreen.Notice :=
  match events with
  | [] => (st, [])
  | Ask :: rest =>
      if RapidStudioScreen.showsDeck st
      then traffic rest (S pending) (RapidStudioScreen.beginFetch st)
      else traffic rest pending st
  | Answer response :: rest =>
      match pending with
      | O => traffic rest O st
      | S fewer =>
          let (st1, alerts1) := RapidStudioScreen.handleNeedMoreImages response st in
          let (st2, alerts2) := traffic rest fewer st1 in
          (st2, alerts1 ++ alerts2)
      end
  end.

(** The responses that complete a request, in the order of completion,
    when every [Ask] is accepted. *)
Fixpoint completed (events : list Traffic) (pending : nat)
  : list RapidStudioScreen.ImagesResponse :=
  match events with
  | [] => []
  | Ask :: rest => completed rest (S pending)
  | Answer response :: rest =>
      match pending with
      | O => completed rest O
      | S fewer => response :: completed rest fewer
      end
  end.

(** * Properties *)

(** ** Comparisons and array access *)

Lemma gt_true (a b : Q) : JS.gt a b = true <-> (b < a)%Q.
Proof.
  unfold JS.gt. rewrite negb_true_iff.
  split; intro H.
  - apply Qnot_le_lt. intro Hle. apply Qle_bool_iff in Hle. congruence.
  - destruct (Qle_bool a b) eqn:E; [|reflexivity].
    apply Qle_bool_iff in E. exfalso. exact (Qlt_not_le _ _ H E).
Qed.

Lemma gt_false (a b : Q) : JS.gt a b = false <-> (a <= b)%Q.
Proof.
  unfold JS.gt. rewrite negb_false_iff. apply Qle_bool_iff.
Qed.

Lemma index_none {A : Type} (arr : list A) (i : Z) :
  JS.index arr i = None <-> i < 0 \/ JS.length arr <= i.
Proof.
  unfold JS.index, JS.length.
  destruct (i <? 0) eqn:E.
  - apply Z.ltb_lt in E. split; auto.
  - apply Z.ltb_ge in E. rewrite nth_error_None. lia.
Qed.

Lemma index_some {A : Type} (arr : list A) (i : Z) (x : A) :
  JS.index arr i = Some x -> 0 <= i < JS.length arr.
Proof.
  intro H.
  destruct (Z_lt_dec i 0) as [Hneg|Hpos].
  - assert (JS.index arr i = None) by (apply index_none; auto). congruence.
  - destruct (Z_le_dec (JS.length arr) i) as [Hge|Hlt]; [|lia].
    assert (JS.index arr i = None) by (apply index_none; auto). congruence.
Qed.

(** ** The rating batch *)

Lemma setRatingBatch_flush (prev : list SwipeRating) (rating : SwipeRating) :
  10 <= JS.length (prev ++ [rating]) ->
  SwipeDeck.setRatingBatch prev rating = ([], [OnSwipe rating]).
Proof.
  intro H. unfold SwipeDeck.setRatingBatch.
  apply Z.leb_le in H. now rewrite H.
Qed.

Lemma setRatingBatch_keep (prev : list SwipeRating) (rating : SwipeRating) :
  JS.length (prev ++ [rating]) < 10 ->
  SwipeDeck.setRatingBatch prev rating = (prev ++ [rating], []).
Proof.
  intro H. unfold SwipeDeck.setRatingBatch.
  apply Z.leb_gt in H. now rewrite H.
Qed.

Lemma setRatingBatch_length (prev : list SwipeRating) (rating : SwipeRating) :
  JS.length (fst (SwipeDeck.setRatingBatch prev rating)) < 10.
Proof.
  unfold SwipeDeck.setRatingBatch.
  destruct (10 <=? JS.length (prev ++ [rating])) eqn:E; simpl.
  - reflexivity.
  - now apply Z.leb_gt in E.
Qed.

(** C10: whatever the batch held before, the batch stored by an append
    is shorter than 10: it is the extended batch when that is shorter
    than 10, and the empty batch as soon as the extended batch reaches
    10. *)
Theorem stored_batch_below_threshold (prev : list SwipeRating) (rating : SwipeRating) :
  let stored := fst (SwipeDeck.setRatingBatch prev rating) in
  JS.length stored < 10 /\
  stored = (if 10 <=? JS.length (prev ++ [rating]) then [] else prev ++ [rating]).
Proof.
  cbv zeta. split; [apply setRatingBatch_length|].
  unfold SwipeDeck.setRatingBatch.
  destruct (10 <=? JS.length (prev ++ [rating])); reflexivity.
Qed.

(** ** The swipe-complete handler *)

Lemma handleSwipeComplete_missing p direction velocity now st :
  JS.index (SwipeDeck.images p) (SwipeDeck.currentIndex st) = None ->
  SwipeDeck.handleSwipeComplete p direction velocity now st = (st, []).
Proof.
  intro H. unfold SwipeDeck.handleSwipeComplete. now rewrite H.
Qed.

Lemma handleSwipeComplete_present p direction velocity now st img :
  JS.index (SwipeDeck.images p) (SwipeDeck.currentIndex st) = Some img ->
  let rating := SwipeDeck.mkRating img direction velocity now
                  (now - SwipeDeck.swipeStartTime st) in
  let st' := fst (SwipeDeck.handleSwipeComplete p direction velocity now st) in
  let evs := snd (SwipeDeck.handleSwipeComplete p direction velocity now st) in
  SwipeDeck.currentIndex st' = SwipeDeck.currentIndex st + 1 /\
  SwipeDeck.ratingBatch st' = fst (SwipeDeck.setRatingBatch (SwipeDeck.ratingBatch st) rating) /\
  decisions evs = [rating] /\
  flushes evs = flushes (snd (SwipeDeck.setRatingBatch (SwipeDeck.ratingBatch st) rating)) /\
  signals evs = 0%nat /\
  prefetched evs = [].
Proof.
  intro H. cbv zeta. unfold SwipeDeck.handleSwipeComplete. rewrite H.
  unfold SwipeDeck.setRatingBatch.
  destruct (10 <=? _); simpl; repeat split; reflexivity.
Qed.

(** C9: a release beyond the threshold while the index is at or past the
    end of the deck constructs no Decision (no callback is called at
    all) and leaves the rating batch and the current index as they
    were. *)
Theorem release_without_item_changes_nothing
    (W : Q) (p : SwipeDeck.Props) (event : PanEvent) (now : Z) (st : SwipeDeck.State) :
  (SwipeDeck.SWIPE_THRESHOLD W < Qabs (translationX event))%Q ->
  JS.length (SwipeDeck.images p) <= SwipeDeck.currentIndex st ->
  let st' := fst (SwipeDeck.onEnd W p event now st) in
  let evs := snd (SwipeDeck.onEnd W p event now st) in
  evs = [] /\
  decisions evs = [] /\
  SwipeDeck.ratingBatch st' = SwipeDeck.ratingBatch st /\
  SwipeDeck.currentIndex st' = SwipeDeck.currentIndex st.
Proof.
  intros Hswipe Hend. cbv zeta. unfold SwipeDeck.onEnd.
  apply gt_true in Hswipe. rewrite Hswipe.
  rewrite handleSwipeComplete_missing.
  - simpl. repeat split; reflexivity.
  - simpl. apply index_none. right. exact Hend.
Qed.

Lemma confidence_bounded (velocity : Q) :
  (0 <= Qmin 1 (Qabs velocity / 1000) <= 1)%Q.
Proof.
  split.
  - apply Q.min_glb.
    + discriminate.
    + apply Qle_shift_div_l; [reflexivity|].
      rewrite Qmult_0_l. apply Qabs_nonneg.
  - apply Q.le_min_l.
Qed.

(** C7: the Decision of a committed swipe with release velocity [v]
    carries [swipeVelocity = |v|] and [confidence = min(1, |v| / 1000)],
    which lies between 0 and 1. *)
Theorem decision_velocity_and_confidence
    (p : SwipeDeck.Props) (d : Direction) (v : Q) (now : Z)
    (st : SwipeDeck.State) (img : ImageData) :
  JS.index (SwipeDeck.images p) (SwipeDeck.currentIndex st) = Some img ->
  exists rating,
    decisions (snd (SwipeDeck.handleSwipeComplete p d v now st)) = [rating] /\
    swipeVelocity rating = Qabs v /\
    confidence rating = Qmin 1 (Qabs v / 1000) /\
    (0 <= confidence rating <= 1)%Q.
Proof.
  intro H.
  destruct (handleSwipeComplete_present p d v now st img H) as (_ & _ & Hdec & _).
  eexists. split; [exact Hdec|].
  simpl. repeat split; try apply confidence_bounded.
Qed.

(** ** Gesture release *)

Lemma threshold_nonneg (W : Q) : (0 <= W)%Q -> (0 <= SwipeDeck.SWIPE_THRESHOLD W)%Q.
Proof.
  intro H. unfold SwipeDeck.SWIPE_THRESHOLD.
  apply Qmult_le_0_compat; [exact H | discriminate].
Qed.

Lemma beyond_threshold_sign (W x : Q) :
  (0 <= W)%Q -> (SwipeDeck.SWIPE_THRESHOLD W < Qabs x)%Q ->
  (0 < x /\ JS.gt x 0 = true)%Q \/ (x < 0 /\ JS.gt x 0 = false)%Q.
Proof.
  intros HW Hx.
  pose proof (threshold_nonneg W HW) as HT.
  destruct (Qlt_le_dec 0 x) as [Hpos|Hneg].
  - left. split; [exact Hpos | now apply gt_true].
  - right. split; [| now apply gt_false].
    apply Qle_lt_or_eq in Hneg. destruct Hneg as [Hlt|Heq]; [exact Hlt|].
    exfalso. rewrite Heq in Hx. simpl in Hx.
    exact (Qlt_not_le _ _ Hx HT).
Qed.

(** C2, as the code has it: with an item at the current index, a release
    with [|dx|] strictly above the threshold emits exactly one Decision,
    for that item and with the direction of the sign of [dx]; a release
    with [|dx|] at or below the threshold emits none, calls nothing, and
    the card settles at the identity transform. *)
Theorem release_decides_strictly_above_threshold
    (W : Q) (p : SwipeDeck.Props) (event : PanEvent) (now : Z)
    (st : SwipeDeck.State) (img : ImageData) :
  (0 <= W)%Q ->
  JS.index (SwipeDeck.images p) (SwipeDeck.currentIndex st) = Some img ->
  let st' := fst (SwipeDeck.onEnd W p event now st) in
  let evs := snd (SwipeDeck.onEnd W p event now st) in
  ((SwipeDeck.SWIPE_THRESHOLD W < Qabs (translationX event))%Q ->
     exists rating,
       decisions evs = [rating] /\
       imageId rating = id img /\
       ((0 < translationX event)%Q -> direction rating = right) /\
       ((translationX event < 0)%Q -> direction rating = left))
  /\
  ((Qabs (translationX event) <= SwipeDeck.SWIPE_THRESHOLD W)%Q ->
     evs = [] /\
     SwipeDeck.currentIndex st' = SwipeDeck.currentIndex st /\
     SwipeDeck.ratingBatch st' = SwipeDeck.ratingBatch st /\
     settled (SwipeDeck.translateX st') = 0%Q /\
     settled (SwipeDeck.translateY st') = 0%Q /\
     settled (SwipeDeck.rotation st') = 0%Q /\
     settled (SwipeDeck.scale st') = 1%Q).
Proof.
  intros HW Himg. cbv zeta. unfold SwipeDeck.onEnd. split.
  - intro Hswipe.
    pose proof (proj2 (gt_true _ _) Hswipe) as Hgt. rewrite Hgt.
    match goal with
    | |- context [SwipeDeck.handleSwipeComplete ?p ?d ?v ?n ?s] =>
        destruct (handleSwipeComplete_present p d v n s img Himg) as (_ & _ & Hdec & _)
    end.
    eexists. split; [exact Hdec|]. simpl.
    split; [reflexivity|].
    destruct (beyond_threshold_sign W _ HW Hswipe) as [[Hpos Hb]|[Hneg Hb]];
      rewrite Hb; split; intro H; try reflexivity; exfalso.
    + exact (Qlt_irrefl _ (Qlt_trans _ _ _ Hpos H)).
    + exact (Qlt_irrefl _ (Qlt_trans _ _ _ Hneg H)).
  - intro Hstay.
    pose proof (proj2 (gt_false _ _) Hstay) as Hgt. rewrite Hgt.
    simpl. repeat split; reflexivity.
Qed.

(** C2 fails at the threshold itself: on a 400 points wide screen the
    threshold is 100, and a release at [dx = 100] on a deck whose current
    card exists emits no Decision. *)
Lemma release_at_threshold_emits_nothing :
  (SwipeDeck.SWIPE_THRESHOLD Scenario.width <= Qabs (translationX (Scenario.drag 100)))%Q /\
  JS.index (SwipeDeck.images (Scenario.props 5)) (SwipeDeck.currentIndex SwipeDeck.initial)
  = Some (Scenario.card 0 universal) /\
  decisions (snd (SwipeDeck.onEnd Scenario.width (Scenario.props 5) (Scenario.drag 100) 100
                    SwipeDeck.initial)) = [].
Proof.
  split; [|split].
  - vm_compute. discriminate.
  - reflexivity.
  - vm_compute. reflexivity.
Qed.

Lemma release_decides_strictly_above_threshold_witness :
  exists rating,
    decisions (snd (SwipeDeck.onEnd Scenario.width (Scenario.props 5) (Scenario.drag 200) 100
                      SwipeDeck.initial)) = [rating] /\
    imageId rating = "A"%string /\
    direction rating = right.
Proof.
  destruct (release_decides_strictly_above_threshold
              Scenario.width (Scenario.props 5) (Scenario.drag 200) 100
              SwipeDeck.initial (Scenario.card 0 universal))
    as [Hcommit _].
  - vm_compute. discriminate.
  - reflexivity.
  - destruct Hcommit as (rating & Hdec & Hid & Hright & _).
    + vm_compute. reflexivity.
    + exists rating. split; [exact Hdec|]. split; [exact Hid|].
      apply Hright. vm_compute. reflexivity.
Defined.

Lemma release_without_item_changes_nothing_witness :
  snd (SwipeDeck.onEnd Scenario.width (Scenario.props 0) (Scenario.drag 200) 100
         SwipeDeck.initial) = [] /\
  SwipeDeck.currentIndex
    (fst (SwipeDeck.onEnd Scenario.width (Scenario.props 0) (Scenario.drag 200) 100
            SwipeDeck.initial)) = 0.
Proof.
  destruct (release_without_item_changes_nothing
              Scenario.width (Scenario.props 0) (Scenario.drag 200) 100 SwipeDeck.initial)
    as (Hevs & _ & _ & Hidx).
  - vm_compute. reflexivity.
  - vm_compute. discriminate.
  - split; [exact Hevs | exact Hidx].
Defined.

Lemma decision_velocity_and_confidence_witness :
  exists rating,
    decisions (snd (SwipeDeck.handleSwipeComplete (Scenario.props 5) right (-250) 100
                      SwipeDeck.initial)) = [rating] /\
    swipeVelocity rating = Qabs (-250) /\
    confidence rating = Qmin 1 (Qabs (-250) / 1000) /\
    (0 <= confidence rating <= 1)%Q.
Proof.
  apply (decision_velocity_and_confidence (Scenario.props 5) right (-250) 100
           SwipeDeck.initial (Scenario.card 0 universal)).
  reflexivity.
Defined.

(** The release handler of the SwipeDeck of rapid-studio-clean uses the
    same strict comparison, against the rounded product
    [screenWidth * 0.3]. *)
Lemma clean_release_strict (W : Q) (event : PanEvent) (st : Clean.SwipeDeck.State) :
  ((JS.mul W (JS.double 0.3) < Qabs (translationX event))%Q ->
     snd (Clean.SwipeDeck.onEnd W event st) <> []) /\
  ((Qabs (translationX event) <= JS.mul W (JS.double 0.3))%Q ->
     snd (Clean.SwipeDeck.onEnd W event st) = [] /\
     Clean.SwipeDeck.currentIndex (fst (Clean.SwipeDeck.onEnd W event st))
     = Clean.SwipeDeck.currentIndex st).
Proof.
  unfold Clean.SwipeDeck.onEnd. split; intro H.
  - apply gt_true in H. rewrite H.
    unfold Clean.SwipeDeck.onSwipeComplete.
    destruct (_ <? _); discriminate.
  - apply gt_false in H. rewrite H. split; reflexivity.
Qed.

(** On a screen 428 points wide the rounded product [428 * 0.3] lies
    just above 128.4: a release at exactly that displacement snaps
    back, and so does one at 128.4. *)
Example clean_release_at_rounded_threshold :
  (JS.mul 428 (JS.double 0.3) == 4517673376206029 # 35184372088832)%Q /\
  (1284 # 10 < JS.mul 428 (JS.double 0.3))%Q /\
  snd (Clean.SwipeDeck.onEnd 428 (Scenario.drag (4517673376206029 # 35184372088832))
         Clean.SwipeDeck.loaded) = [] /\
  snd (Clean.SwipeDeck.onEnd 428 (Scenario.drag (1284 # 10)) Clean.SwipeDeck.loaded) = [].
Proof.
  vm_compute. repeat split; reflexivity.
Qed.

(** ** The current index over time *)

Lemma handleSwipeComplete_index p d v now st :
  SwipeDeck.currentIndex st
  <= SwipeDeck.currentIndex (fst (SwipeDeck.handleSwipeComplete p d v now st))
  <= SwipeDeck.currentIndex st + 1.
Proof.
  unfold SwipeDeck.handleSwipeComplete.
  destruct (JS.index _ _); [|simpl; lia].
  destruct (SwipeDeck.setRatingBatch _ _). simpl. lia.
Qed.

Lemma onEnd_index W p event now st :
  SwipeDeck.currentIndex st
  <= SwipeDeck.currentIndex (fst (SwipeDeck.onEnd W p event now st))
  <= SwipeDeck.currentIndex st + 1.
Proof.
  unfold SwipeDeck.onEnd.
  destruct (JS.gt _ _); [|simpl; lia].
  match goal with
  | |- context [SwipeDeck.handleSwipeComplete ?p ?d ?v ?n ?s] =>
      pose proof (handleSwipeComplete_index p d v n s) as H
  end.
  simpl in H. exact H.
Qed.

Lemma step_index W a c :
  SwipeDeck.currentIndex (SwipeDeck.state c)
  <= SwipeDeck.currentIndex (SwipeDeck.state (fst (SwipeDeck.step W a c)))
  <= SwipeDeck.currentIndex (SwipeDeck.state c) + 1.
Proof.
  unfold SwipeDeck.step.
  destruct (SwipeDeck.handle W a c) as [c' evs] eqn:E. simpl.
  destruct a; simpl in E.
  - inversion E; subst; simpl. lia.
  - inversion E; subst; simpl. lia.
  - pose proof (onEnd_index W (SwipeDeck.props c) event now (SwipeDeck.state c)) as H.
    destruct (SwipeDeck.onEnd W _ _ _ _) as [st evs0].
    inversion E; subst; simpl in *. exact H.
  - inversion E; subst; simpl. lia.
Qed.

Lemma run_index W actions : forall c,
  SwipeDeck.currentIndex (SwipeDeck.state c)
  <= SwipeDeck.currentIndex (SwipeDeck.state (fst (SwipeDeck.run W actions c))).
Proof.
  induction actions as [|a rest IH]; intro c; simpl.
  - lia.
  - pose proof (step_index W a c) as Hs.
    destruct (SwipeDeck.step W a c) as [c1 evs1].
    specialize (IH c1).
    destruct (SwipeDeck.run W rest c1) as [c2 evs2].
    simpl in *. lia.
Qed.

(** C8, as the code has it: in the tiered deck the current index never
    decreases, whatever the sequence of gestures and appended batches,
    and every single step leaves it unchanged or adds one; in the two
    decks of rapid-studio-clean a committed swipe advances the index by
    one below the last card and sets it back to 0 at the last card,
    and a release that does not commit leaves the index. *)
Theorem index_monotone_in_tiered_deck_and_wraps_in_clean_decks :
  (forall W actions c,
     SwipeDeck.currentIndex (SwipeDeck.state c)
     <= SwipeDeck.currentIndex (SwipeDeck.state (fst (SwipeDeck.run W actions c))))
  /\
  (forall W a c,
     SwipeDeck.currentIndex (SwipeDeck.state (fst (SwipeDeck.step W a c)))
     = SwipeDeck.currentIndex (SwipeDeck.state c)
     \/
     SwipeDeck.currentIndex (SwipeDeck.state (fst (SwipeDeck.step W a c)))
     = SwipeDeck.currentIndex (SwipeDeck.state c) + 1)
  /\
  (forall d st,
     Clean.SwipeDeck.currentIndex (fst (Clean.SwipeDeck.onSwipeComplete d st))
     = if Clean.SwipeDeck.currentIndex st <? JS.length (Clean.SwipeDeck.images st) - 1
       then Clean.SwipeDeck.currentIndex st + 1 else 0)
  /\
  (forall W event st,
     Clean.SwipeDeck.currentIndex (fst (Clean.SwipeDeck.onEnd W event st))
     = if JS.gt (Qabs (translationX event)) (JS.mul W (JS.double 0.3))
       then if Clean.SwipeDeck.currentIndex st <? JS.length (Clean.SwipeDeck.images st) - 1
            then Clean.SwipeDeck.currentIndex st + 1 else 0
       else Clean.SwipeDeck.currentIndex st)
  /\
  (forall W g st,
     Clean.SafeSwipeDeck.currentIndex (fst (Clean.SafeSwipeDeck.onPanResponderRelease W g st))
     = if JS.gt (Qabs (Clean.SafeSwipeDeck.dx g)) (JS.mul W (JS.double 0.3))
       then if Clean.SafeSwipeDeck.currentIndex st <? 4
            then Clean.SafeSwipeDeck.currentIndex st + 1 else 0
       else Clean.SafeSwipeDeck.currentIndex st).
Proof.
  split; [|split; [|split; [|split]]].
  - intros W actions c. apply run_index.
  - intros W a c. pose proof (step_index W a c) as H. lia.
  - intros d st. unfold Clean.SwipeDeck.onSwipeComplete.
    destruct (_ <? _); reflexivity.
  - intros W event st. unfold Clean.SwipeDeck.onEnd.
    destruct (JS.gt _ _); [|reflexivity].
    unfold Clean.SwipeDeck.onSwipeComplete. simpl.
    destruct (_ <? _); reflexivity.
  - intros W g st. unfold Clean.SafeSwipeDeck.onPanResponderRelease.
    destruct (JS.gt _ _); [|reflexivity].
    change (JS.length Clean.SafeSwipeDeck.images - 1) with 4.
    destruct (_ <? _); reflexivity.
Qed.

(** C8 fails in the deck of rapid-studio-clean: a committed swipe on the
    last of the five sample cards takes the index from 4 back to 0. *)
Lemma clean_deck_index_goes_back :
  let last := fst (Clean.SwipeDeck.onSwipeComplete right
               (fst (Clean.SwipeDeck.onSwipeComplete right
                 (fst (Clean.SwipeDeck.onSwipeComplete right
                   (fst (Clean.SwipeDeck.onSwipeComplete right Clean.SwipeDeck.loaded))))))) in
  Clean.SwipeDeck.currentIndex last = 4 /\
  Clean.SwipeDeck.currentIndex
    (fst (Clean.SwipeDeck.onEnd Scenario.width (Scenario.drag 200) last)) = 0 /\
  Clean.SafeSwipeDeck.currentIndex
    (fst (Clean.SafeSwipeDeck.onPanResponderRelease Scenario.width
            {| Clean.SafeSwipeDeck.dx := 200; Clean.SafeSwipeDeck.dy := 0 |}
            {| Clean.SafeSwipeDeck.currentIndex := 4;
               Clean.SafeSwipeDeck.panX := Assign 0;
               Clean.SafeSwipeDeck.panY := Assign 0;
               Clean.SafeSwipeDeck.scale := Assign 1 |})) = 0.
Proof.
  vm_compute. repeat split; reflexivity.
Qed.

(** ** The rating batch over ten swipes *)

(** C1 on a deck of twelve cards: ten committed swipes construct ten
    Decisions, for the cards A to J in this order; [onSwipe] is called
    once, with the Decision for J alone; the batch is empty afterwards,
    so the Decisions for A to I are neither delivered nor kept. *)
Theorem ten_swipes_deliver_only_the_tenth :
  let result := SwipeDeck.run Scenario.width (Scenario.swipes 10) (Scenario.mounted 12) in
  map imageId (decisions (snd result))
  = ["A"; "B"; "C"; "D"; "E"; "F"; "G"; "H"; "I"; "J"]%string /\
  flushes (snd result)
  = [SwipeDeck.mkRating (Scenario.card 9 universal) right 600 1000 1000] /\
  SwipeDeck.ratingBatch (SwipeDeck.state (fst result)) = [] /\
  SwipeDeck.currentIndex (SwipeDeck.state (fst result)) = 10.
Proof.
  vm_compute. repeat split; reflexivity.
Qed.

(** The same for any ten ratings appended to an empty batch: one call of
    [onSwipe], with the tenth rating. *)
Lemma ten_appends_deliver_only_the_tenth (ratings : list SwipeRating) :
  List.length ratings = 10%nat ->
  exists tenth,
    nth_error ratings 9 = Some tenth /\
    SwipeDeck.appendAll [] ratings = ([], [OnSwipe tenth]).
Proof.
  intro H.
  do 10 (destruct ratings as [|? ratings]; [discriminate H|]).
  destruct ratings; [|discriminate H].
  eexists. split; reflexivity.
Qed.

(** Nine swipes keep everything in the batch and deliver nothing. *)
Example nine_swipes_deliver_nothing :
  let result := SwipeDeck.run Scenario.width (Scenario.swipes 9) (Scenario.mounted 12) in
  flushes (snd result) = [] /\
  map imageId (SwipeDeck.ratingBatch (SwipeDeck.state (fst result)))
  = ["A"; "B"; "C"; "D"; "E"; "F"; "G"; "H"; "I"]%string.
Proof.
  vm_compute. split; reflexivity.
Qed.

(** The batch of every reachable state is shorter than 10. *)
Lemma handleSwipeComplete_batch p d v now st :
  JS.length (SwipeDeck.ratingBatch st) < 10 ->
  JS.length (SwipeDeck.ratingBatch (fst (SwipeDeck.handleSwipeComplete p d v now st))) < 10.
Proof.
  intro H. unfold SwipeDeck.handleSwipeComplete.
  destruct (JS.index _ _) as [img|]; [|exact H].
  match goal with
  | |- context [SwipeDeck.setRatingBatch ?b ?r] =>
      pose proof (setRatingBatch_length b r) as Hlt;
      destruct (SwipeDeck.setRatingBatch b r)
  end.
  exact Hlt.
Qed.

Lemma onEnd_batch W p event now st :
  JS.length (SwipeDeck.ratingBatch st) < 10 ->
  JS.length (SwipeDeck.ratingBatch (fst (SwipeDeck.onEnd W p event now st))) < 10.
Proof.
  intro H. unfold SwipeDeck.onEnd.
  destruct (JS.gt _ _); [|exact H].
  apply handleSwipeComplete_batch. exact H.
Qed.

Lemma step_batch W a c :
  JS.length (SwipeDeck.ratingBatch (SwipeDeck.state c)) < 10 ->
  JS.length (SwipeDeck.ratingBatch (SwipeDeck.state (fst (SwipeDeck.step W a c)))) < 10.
Proof.
  intro H. unfold SwipeDeck.step.
  destruct (SwipeDeck.handle W a c) as [c' evs] eqn:E. simpl.
  destruct a; simpl in E; try (inversion E; subst; simpl; exact H).
  pose proof (onEnd_batch W (SwipeDeck.props c) event now (SwipeDeck.state c) H) as Hb.
  destruct (SwipeDeck.onEnd W _ _ _ _) as [st evs0].
  inversion E; subst; simpl in *. exact Hb.
Qed.

Lemma reachable_batch_below_threshold W p actions :
  JS.length (SwipeDeck.ratingBatch
               (SwipeDeck.state (fst (SwipeDeck.run W actions (fst (SwipeDeck.mount p)))))) < 10.
Proof.
  assert (Hgen : forall c,
             JS.length (SwipeDeck.ratingBatch (SwipeDeck.state c)) < 10 ->
             JS.length (SwipeDeck.ratingBatch
                          (SwipeDeck.state (fst (SwipeDeck.run W actions c)))) < 10).
  { induction actions as [|a rest IH]; intros c Hc; simpl.
    - exact Hc.
    - pose proof (step_batch W a c Hc) as Hs.
      destruct (SwipeDeck.step W a c) as [c1 evs1].
      specialize (IH c1 Hs).
      destruct (SwipeDeck.run W rest c1) as [c2 evs2].
      exact IH. }
  apply Hgen. simpl. reflexivity.
Qed.

(** ** The low-buffer signal *)

Lemma signals_app (a b : list Event) : signals (a ++ b) = (signals a + signals b)%nat.
Proof.
  unfold signals. now rewrite filter_app, length_app.
Qed.

Lemma signals_prefetch (imgs : list ImageData) : signals (map Prefetch imgs) = 0%nat.
Proof.
  induction imgs as [|i rest IH]; [reflexivity | exact IH].
Qed.

Lemma signals_needMoreEffect p idx :
  signals (SwipeDeck.needMoreEffect p idx)
  = if JS.length (SwipeDeck.images p) - idx <=? 10 then 1%nat else 0%nat.
Proof.
  unfold SwipeDeck.needMoreEffect. destruct (_ <=? _); reflexivity.
Qed.

(** C3, as the code has it: the step of a committed swipe (release above
    the threshold with an item at the current index) advances the index
    by one and fires the need-more-content signal once when the buffer
    that remains after the advance is at most 10, and not at all when it
    is larger; nothing remembers that the signal was already fired. *)
Theorem signal_fired_on_every_advance_at_or_below_mark
    (W : Q) (c : SwipeDeck.Instance) (event : PanEvent) (now : Z) (img : ImageData) :
  (SwipeDeck.SWIPE_THRESHOLD W < Qabs (translationX event))%Q ->
  JS.index (SwipeDeck.images (SwipeDeck.props c))
           (SwipeDeck.currentIndex (SwipeDeck.state c)) = Some img ->
  let c' := fst (SwipeDeck.step W (SwipeDeck.PanEnd event now) c) in
  let evs := snd (SwipeDeck.step W (SwipeDeck.PanEnd event now) c) in
  SwipeDeck.props c' = SwipeDeck.props c /\
  SwipeDeck.currentIndex (SwipeDeck.state c')
  = SwipeDeck.currentIndex (SwipeDeck.state c) + 1 /\
  signals evs
  = if JS.length (SwipeDeck.images (SwipeDeck.props c))
       - (SwipeDeck.currentIndex (SwipeDeck.state c) + 1) <=? 10
    then 1%nat else 0%nat.
Proof.
  intros Hswipe Himg. cbv zeta.
  unfold SwipeDeck.step, SwipeDeck.handle, SwipeDeck.onEnd.
  apply gt_true in Hswipe. rewrite Hswipe.
  match goal with
  | |- context [SwipeDeck.handleSwipeComplete ?p ?d ?v ?n ?s] =>
      destruct (handleSwipeComplete_present p d v n s img Himg)
        as (Hidx & _ & _ & _ & Hsig & _);
      destruct (SwipeDeck.handleSwipeComplete p d v n s) as [st' evs0]
  end.
  simpl in Hidx, Hsig. simpl.
  split; [reflexivity|]. split; [exact Hidx|].
  unfold SwipeDeck.runEffects. simpl.
  rewrite Hidx.
  replace (SwipeDeck.currentIndex (SwipeDeck.state c)
           =? SwipeDeck.currentIndex (SwipeDeck.state c) + 1) with false
    by (symmetry; apply Z.eqb_neq; lia).
  simpl.
  rewrite !signals_app, Hsig.
  unfold SwipeDeck.aggressivePrefetch. rewrite signals_prefetch.
  rewrite signals_needMoreEffect. reflexivity.
Qed.

Lemma signal_fired_on_every_advance_at_or_below_mark_witness :
  let c := fst (SwipeDeck.run Scenario.width (Scenario.swipes 2) (Scenario.mounted 12)) in
  signals (snd (SwipeDeck.step Scenario.width (SwipeDeck.PanEnd (Scenario.drag 200) 300) c))
  = 1%nat.
Proof.
  cbv zeta.
  destruct (signal_fired_on_every_advance_at_or_below_mark Scenario.width
              (fst (SwipeDeck.run Scenario.width (Scenario.swipes 2) (Scenario.mounted 12)))
              (Scenario.drag 200) 300 (Scenario.card 2 universal))
    as (_ & _ & Hsig).
  - vm_compute. reflexivity.
  - vm_compute. reflexivity.
  - rewrite Hsig. vm_compute. reflexivity.
Defined.

(** C3 fails on a deck of twelve cards: the three swipes that take the
    buffer from 12 to 9 fire the signal twice (at 10 and at 9), and a
    fourth swipe fires it a third time although nothing was appended. *)
Lemma buffer_12_to_9_fires_twice :
  JS.length (SwipeDeck.images (SwipeDeck.props (Scenario.mounted 12)))
  - SwipeDeck.currentIndex (SwipeDeck.state (Scenario.mounted 12)) = 12 /\
  (let result := SwipeDeck.run Scenario.width (Scenario.swipes 3) (Scenario.mounted 12) in
   JS.length (SwipeDeck.images (SwipeDeck.props (fst result)))
   - SwipeDeck.currentIndex (SwipeDeck.state (fst result)) = 9 /\
   signals (snd result) = 2%nat) /\
  (let result := SwipeDeck.run Scenario.width (Scenario.swipes 4) (Scenario.mounted 12) in
   SwipeDeck.images (SwipeDeck.props (fst result)) = Scenario.deck 12 /\
   signals (snd result) = 3%nat).
Proof.
  vm_compute. repeat split; reflexivity.
Qed.

(** ** Sorting by tier *)

Section SortFacts.

Context {A : Type} (cmp : A -> A -> Z).

Lemma insert_perm (a : A) (l : list A) : Permutation (JS.insert cmp a l) (a :: l).
Proof.
  induction l as [|b rest IH]; simpl.
  - apply Permutation_refl.
  - destruct (cmp a b <=? 0).
    + apply Permutation_refl.
    + apply perm_trans with (b :: a :: rest).
      * apply perm_skip. exact IH.
      * apply perm_swap.
Qed.

Lemma sort_perm (l : list A) : Permutation (JS.sort cmp l) l.
Proof.
  induction l as [|a rest IH]; simpl.
  - apply perm_nil.
  - apply perm_trans with (a :: JS.sort cmp rest).
    + apply insert_perm.
    + apply perm_skip. exact IH.
Qed.

(** An element goes in front of a list of elements it does not compare
    greater than ... *)
Lemma insert_front (a : A) (l : list A) :
  Forall (fun b => cmp a b <= 0) l -> JS.insert cmp a l = a :: l.
Proof.
  intro H. destruct H as [|b rest Hb _]; simpl.
  - reflexivity.
  - apply Z.leb_le in Hb. now rewrite Hb.
Qed.

(** ... and passes every element it compares greater than. *)
Lemma insert_pass (a : A) (l r : list A) :
  Forall (fun b => 0 < cmp a b) l ->
  JS.insert cmp a (l ++ r) = l ++ JS.insert cmp a r.
Proof.
  induction 1 as [|b rest Hb _ IH]; simpl.
  - reflexivity.
  - apply Z.leb_gt in Hb. rewrite Hb. now rewrite IH.
Qed.

End SortFacts.

Lemma ofTier_all (t : Tier) (l : list ImageData) :
  Forall (fun img => tier img = t) (ofTier t l).
Proof.
  apply Forall_forall. intros img Hin.
  apply filter_In in Hin. destruct Hin as [_ H].
  unfold hasTier in H. destruct t, (tier img); congruence.
Qed.

Lemma Forall_tier_cmp (P : Z -> Prop) (a : ImageData) (t : Tier) (l : list ImageData) :
  P (SwipeDeck.tierPriority t - SwipeDeck.tierPriority (tier a)) ->
  Forall (fun img => tier img = t) l ->
  Forall (fun b => P (byTier a b)) l.
Proof.
  intros HP H. induction H as [|b rest Hb _ IH]; constructor.
  - unfold byTier. now rewrite Hb.
  - exact IH.
Qed.

Lemma insert_by_tier (a : ImageData) (l : list ImageData) :
  JS.insert byTier a (ofTier personal l ++ ofTier demographic l ++ ofTier universal l)
  = ofTier personal (a :: l) ++ ofTier demographic (a :: l) ++ ofTier universal (a :: l).
Proof.
  pose proof (ofTier_all personal l) as HP.
  pose proof (ofTier_all demographic l) as HD.
  pose proof (ofTier_all universal l) as HU.
  unfold ofTier at 4 5 6. simpl. unfold hasTier at 1 3 5.
  destruct (tier a) eqn:Ht; fold (ofTier personal l) (ofTier demographic l) (ofTier universal l).
  - (* universal: behind every personal and demographic item *)
    rewrite insert_pass.
    2:{ apply (Forall_tier_cmp (fun z => 0 < z) a personal); [rewrite Ht; simpl; lia | exact HP]. }
    rewrite insert_pass.
    2:{ apply (Forall_tier_cmp (fun z => 0 < z) a demographic); [rewrite Ht; simpl; lia | exact HD]. }
    rewrite insert_front.
    2:{ apply (Forall_tier_cmp (fun z => z <= 0) a universal); [rewrite Ht; simpl; lia | exact HU]. }
    reflexivity.
  - (* demographic: behind every personal item *)
    rewrite insert_pass.
    2:{ apply (Forall_tier_cmp (fun z => 0 < z) a personal); [rewrite Ht; simpl; lia | exact HP]. }
    rewrite insert_front.
    2:{ apply Forall_app. split.
        - apply (Forall_tier_cmp (fun z => z <= 0) a demographic); [rewrite Ht; simpl; lia | exact HD].
        - apply (Forall_tier_cmp (fun z => z <= 0) a universal); [rewrite Ht; simpl; lia | exact HU]. }
    reflexivity.
  - (* personal: in front *)
    rewrite insert_front.
    2:{ apply Forall_app. split; [|apply Forall_app; split].
        - apply (Forall_tier_cmp (fun z => z <= 0) a personal); [rewrite Ht; simpl; lia | exact HP].
        - apply (Forall_tier_cmp (fun z => z <= 0) a demographic); [rewrite Ht; simpl; lia | exact HD].
        - apply (Forall_tier_cmp (fun z => z <= 0) a universal); [rewrite Ht; simpl; lia | exact HU]. }
    reflexivity.
Qed.

Lemma sort_by_tier (l : list ImageData) :
  JS.sort byTier l = ofTier personal l ++ ofTier demographic l ++ ofTier universal l.
Proof.
  induction l as [|a rest IH].
  - reflexivity.
  - simpl JS.sort. rewrite IH. apply insert_by_tier.
Qed.

Lemma rankedBefore_sorted (l : list ImageData) :
  StronglySorted rankedBefore
    (ofTier personal l ++ ofTier demographic l ++ ofTier universal l).
Proof.
  pose proof (ofTier_all personal l) as HP.
  pose proof (ofTier_all demographic l) as HD.
  pose proof (ofTier_all universal l) as HU.
  assert (Hblock : forall (t : Tier) (block rest : list ImageData),
             Forall (fun img => tier img = t) block ->
             Forall (fun img => SwipeDeck.tierPriority (tier img) <= SwipeDeck.tierPriority t) rest ->
             StronglySorted rankedBefore rest ->
             StronglySorted rankedBefore (block ++ rest)).
  { intros t block rest Hb Hrest Hs.
    induction Hb as [|x xs Hx Hxs IH]; simpl; [exact Hs|].
    constructor; [exact IH|].
    apply Forall_app. split.
    - eapply Forall_impl; [|exact Hxs].
      intros y Hy. unfold rankedBefore. rewrite Hx, Hy. lia.
    - eapply Forall_impl; [|exact Hrest].
      intros y Hy. unfold rankedBefore. rewrite Hx. exact Hy. }
  apply (Hblock personal).
  - exact HP.
  - apply Forall_forall. intros y _. destruct (tier y); simpl; lia.
  - apply (Hblock demographic).
    + exact HD.
    + eapply Forall_impl; [|exact HU]. intros y Hy. rewrite Hy. simpl. lia.
    + rewrite <- (app_nil_r (ofTier universal l)).
      apply (Hblock universal); [exact HU | constructor | constructor].
Qed.

Lemma prefetched_map (imgs : list ImageData) : prefetched (map Prefetch imgs) = imgs.
Proof.
  induction imgs as [|i rest IH]; simpl; [reflexivity | now rewrite IH].
Qed.

Lemma aggressivePrefetch_issued p idx :
  prefetched (SwipeDeck.aggressivePrefetch p idx)
  = JS.sort byTier
      (JS.slice (SwipeDeck.images p) (Z.max 0 idx)
         (Z.min (JS.length (SwipeDeck.images p)) (idx + SwipeDeck.prefetchBuffer p))).
Proof.
  unfold SwipeDeck.aggressivePrefetch. apply prefetched_map.
Qed.

(** C5: the prefetch requests are issued in the order of tier rank, most
    personalized first: all personal items of the window, then all
    demographic ones, then all universal ones (each group in deck
    order), so no item is requested before a more personalized one. *)
Theorem prefetch_issued_in_tier_order (p : SwipeDeck.Props) (idx : Z) :
  let window := JS.slice (SwipeDeck.images p) (Z.max 0 idx)
                  (Z.min (JS.length (SwipeDeck.images p)) (idx + SwipeDeck.prefetchBuffer p)) in
  let issued := prefetched (SwipeDeck.aggressivePrefetch p idx) in
  StronglySorted rankedBefore issued /\
  issued = ofTier personal window ++ ofTier demographic window ++ ofTier universal window.
Proof.
  cbv zeta. rewrite aggressivePrefetch_issued, sort_by_tier.
  split; [apply rankedBefore_sorted | reflexivity].
Qed.

(** A window in which deck order and tier order differ. *)
Example mixed_window_is_reordered :
  map id (prefetched (SwipeDeck.aggressivePrefetch
                        {| SwipeDeck.images := Scenario.mixed; SwipeDeck.prefetchBuffer := 50 |} 0))
  = ["B"; "D"; "C"; "A"; "E"]%string.
Proof.
  vm_compute. reflexivity.
Qed.

(** ** The prefetch window *)

Lemma window_positions {A : Type} (deck : list A) : forall (from lo hi : Z),
  map snd (filter (inWindow lo hi) (positioned from deck))
  = firstn (Z.to_nat (hi - Z.max lo from)) (skipn (Z.to_nat (lo - from)) deck).
Proof.
  induction deck as [|x rest IH]; intros from lo hi.
  - simpl. now rewrite skipn_nil, firstn_nil.
  - cbn [positioned filter]. unfold inWindow at 1. cbn [fst].
    destruct (lo <=? from) eqn:Elo; cbn [andb].
    + apply Z.leb_le in Elo.
      replace (Z.to_nat (lo - from)) with 0%nat by lia.
      cbn [skipn].
      destruct (from <? hi) eqn:Ehi; cbn [map snd]; rewrite IH.
      * apply Z.ltb_lt in Ehi.
        replace (Z.to_nat (lo - (from + 1))) with 0%nat by lia.
        replace (Z.to_nat (hi - Z.max lo from))
          with (S (Z.to_nat (hi - Z.max lo (from + 1)))) by lia.
        reflexivity.
      * apply Z.ltb_ge in Ehi.
        replace (Z.to_nat (hi - Z.max lo from)) with 0%nat by lia.
        replace (Z.to_nat (hi - Z.max lo (from + 1))) with 0%nat by lia.
        reflexivity.
    + apply Z.leb_gt in Elo. rewrite IH.
      replace (Z.to_nat (lo - from)) with (S (Z.to_nat (lo - (from + 1)))) by lia.
      replace (Z.max lo (from + 1)) with (Z.max lo from) by lia.
      reflexivity.
Qed.

Lemma slice_is_window {A : Type} (deck : list A) (idx N : Z) :
  0 <= idx + N ->
  JS.slice deck (Z.max 0 idx) (Z.min (JS.length deck) (idx + N))
  = lookaheadWindow deck idx N.
Proof.
  intro H. unfold lookaheadWindow. rewrite window_positions.
  unfold JS.slice, JS.relative, JS.length.
  set (len := List.length deck).
  replace (Z.max 0 idx <? 0) with false by (symmetry; apply Z.ltb_ge; lia).
  replace (Z.min (Z.of_nat len) (idx + N) <? 0) with false by (symmetry; apply Z.ltb_ge; lia).
  destruct (Z_lt_dec (Z.max 0 idx) (Z.of_nat len)) as [Hin|Hout].
  - replace (Z.to_nat (Z.min (Z.max 0 idx) (Z.of_nat len))) with (Z.to_nat (idx - 0)) by lia.
    set (r := skipn (Z.to_nat (idx - 0)) deck).
    assert (Hr : List.length r = (len - Z.to_nat (idx - 0))%nat) by apply length_skipn.
    destruct (Z_le_dec (idx + N) (Z.of_nat len)) as [Hshort|Hlong].
    + f_equal. lia.
    + rewrite (firstn_all2 (n := Z.to_nat (idx + N - Z.max idx 0))) by lia.
      apply firstn_all2. lia.
  - rewrite (skipn_all2 (n := Z.to_nat (idx - 0))) by (fold len; lia).
    rewrite (skipn_all2 (n := Z.to_nat (Z.min (Z.max 0 idx) (Z.of_nat len)))) by (fold len; lia).
    now rewrite !firstn_nil.
Qed.

(** C4, as the code has it: when the window does not end before the
    start of the deck, the items for which prefetch is issued are
    exactly the deck items at the positions
    [currentIndex <= i < currentIndex + N], each position once and
    whether or not the item was prefetched before; in particular every
    requested item lies in the window. *)
Theorem prefetch_issued_for_the_whole_window (p : SwipeDeck.Props) (idx : Z) :
  0 <= idx + SwipeDeck.prefetchBuffer p ->
  let issued := prefetched (SwipeDeck.aggressivePrefetch p idx) in
  let window := lookaheadWindow (SwipeDeck.images p) idx (SwipeDeck.prefetchBuffer p) in
  Permutation issued window /\
  (forall img, In img issued <-> In img window).
Proof.
  intro H. cbv zeta.
  assert (Hperm : Permutation (prefetched (SwipeDeck.aggressivePrefetch p idx))
                    (lookaheadWindow (SwipeDeck.images p) idx (SwipeDeck.prefetchBuffer p))).
  { rewrite aggressivePrefetch_issued, <- slice_is_window by exact H.
    apply sort_perm. }
  split; [exact Hperm|].
  intro img. split; intro Hin.
  - eapply Permutation_in; [exact Hperm | exact Hin].
  - eapply Permutation_in; [apply Permutation_sym; exact Hperm | exact Hin].
Qed.

Lemma prefetch_issued_for_the_whole_window_witness :
  Permutation
    (prefetched (SwipeDeck.aggressivePrefetch
                   {| SwipeDeck.images := Scenario.mixed; SwipeDeck.prefetchBuffer := 2 |} 1))
    [Scenario.card 1 personal; Scenario.card 2 demographic].
Proof.
  apply (prefetch_issued_for_the_whole_window
           {| SwipeDeck.images := Scenario.mixed; SwipeDeck.prefetchBuffer := 2 |} 1).
  vm_compute. discriminate.
Defined.

(** C4 fails on the deck A, B, C with a window of two: the mount
    prefetches A and B, and after the swipe on A the effect prefetches B
    again, together with C. *)
Lemma prefetched_item_is_requested_again :
  let p := {| SwipeDeck.images := Scenario.deck 3; SwipeDeck.prefetchBuffer := 2 |} in
  map id (prefetched (snd (SwipeDeck.mount p))) = ["A"; "B"]%string /\
  map id (prefetched (snd (SwipeDeck.step Scenario.width
                             (SwipeDeck.PanEnd (Scenario.drag 200) 100)
                             (fst (SwipeDeck.mount p))))) = ["B"; "C"]%string.
Proof.
  vm_compute. split; reflexivity.
Qed.

(** A negative lookahead that ends before the start of the deck makes
    [slice] count from the end of the array. *)
Example negative_window_wraps :
  map id (prefetched (SwipeDeck.aggressivePrefetch
                        {| SwipeDeck.images := Scenario.deck 3; SwipeDeck.prefetchBuffer := -1 |} 0))
  = ["A"; "B"]%string.
Proof.
  vm_compute. reflexivity.
Qed.

(** ** Rotation while the gesture is active *)



(** X14: in the SwipeDeck of rapid-studio-clean, on a screen of positive
    width, the rotation of the dragged card always lies between -30 and
    30 degrees and has the sign of the displacement; it is 30 beyond
    [W] and -30 beyond [-W]. *)
Lemma clean_rotation_clamped (W : Q) (event : PanEvent) (st : Clean.SwipeDeck.State) :
  (0 < W)%Q ->
  let r := settled (Clean.SwipeDeck.rotate (Clean.SwipeDeck.onActive W event st)) in
  (-30 <= r <= 30)%Q /\
  (((0 <= translationX event)%Q -> (0 <= r)%Q) /\
   ((translationX event <= 0)%Q -> (r <= 0)%Q)) /\
  ((W < translationX event)%Q -> r = 30%Q) /\
  ((translationX event < - W)%Q -> r = (-30)%Q).
Proof.
  intro HW. cbv zeta. simpl. unfold Reanimated.interpolate.
  set (x := translationX event).
  assert (HW0 : ~ (W == 0)%Q) by (intro E; rewrite E in HW; discriminate).
  assert (Hseg : Reanimated.narrow x [- W; W]%Q [-30; 30]%Q
                 = Some {| Reanimated.leftEdgeInput := - W; Reanimated.rightEdgeInput := W;
                           Reanimated.leftEdgeOutput := -30; Reanimated.rightEdgeOutput := 30 |}).
  { simpl. destruct (Qle_bool x W); reflexivity. }
  rewrite Hseg. unfold Reanimated.internalInterpolate. simpl.
  replace (Qeq_bool (W - - W) 0) with false.
  2:{ symmetry. apply not_true_is_false. intro E. apply Qeq_bool_iff in E. apply HW0. lra. }
  set (val := (-30 + (x - - W) / (W - - W) * (30 - -30))%Q).
  assert (Hval : (val == x * 30 / W)%Q).
  { unfold val. field. split; [exact HW0 | intro E; apply HW0; lra]. }
  assert (Hmul : (val * W == x * 30)%Q).
  { rewrite Hval. field. exact HW0. }
  clearbody val.
  unfold Reanimated.getVal.
  change (Qle_bool (-30) 30) with true. cbv iota.
  destruct (JS.gt (1 * -30) (1 * val)) eqn:Elow.
  - apply gt_true in Elow.
    repeat split; intros; try lra; try reflexivity; exfalso; nra.
  - apply gt_false in Elow.
    destruct (JS.gt (1 * val) (1 * 30)) eqn:Ehigh.
    + apply gt_true in Ehigh.
      replace (JS.gt (1 * -30) (1 * val)) with false.
      2:{ symmetry. apply gt_false. lra. }
      repeat split; intros; try lra; try reflexivity; exfalso; nra.
    + apply gt_false in Ehigh.
      repeat split; intros; try lra; try nra; exfalso; nra.
Qed.

(** C6 on a 400 points wide screen, at a displacement of twice the screen
    width: the tiered deck rotates the card by 60 degrees (and by -60
    degrees for the opposite displacement), where the deck of
    rapid-studio-clean stops at 30 degrees. *)
Theorem tiered_rotation_exceeds_30_degrees :
  (settled (SwipeDeck.rotation
              (SwipeDeck.onUpdate Scenario.width (Scenario.drag 800) SwipeDeck.initial))
   == 60)%Q /\
  (settled (SwipeDeck.rotation
              (SwipeDeck.onUpdate Scenario.width (Scenario.drag (-800)) SwipeDeck.initial))
   == -60)%Q /\
  (settled (Clean.SwipeDeck.rotate
              (Clean.SwipeDeck.onActive Scenario.width (Scenario.drag 800) Clean.SwipeDeck.loaded))
   == 30)%Q.
Proof.
  vm_compute. repeat split; reflexivity.
Qed.

(** * Further properties of the tiered deck *)

(** ** What one step does to index, batch and deck *)

Lemma decisions_app (a b : list Event) : decisions (a ++ b) = decisions a ++ decisions b.
Proof. apply flat_map_app. Qed.

Lemma flushes_app (a b : list Event) : flushes (a ++ b) = flushes a ++ flushes b.
Proof. apply flat_map_app. Qed.

Lemma prefetched_app (a b : list Event) : prefetched (a ++ b) = prefetched a ++ prefetched b.
Proof. apply flat_map_app. Qed.

Lemma effects_decide_nothing a before after :
  decisions (SwipeDeck.runEffects a before after) = [] /\
  flushes (SwipeDeck.runEffects a before after) = [].
Proof.
  assert (Hp : forall l, decisions (map Prefetch l) = [] /\ flushes (map Prefetch l) = []).
  { induction l as [|x l [IH1 IH2]]; simpl; auto. }
  assert (Hn : forall p i, decisions (SwipeDeck.needMoreEffect p i) = []
                           /\ flushes (SwipeDeck.needMoreEffect p i) = []).
  { intros p i. unfold SwipeDeck.needMoreEffect. destruct (_ <=? _); simpl; auto. }
  unfold SwipeDeck.runEffects, SwipeDeck.aggressivePrefetch.
  rewrite decisions_app, flushes_app.
  destruct (_ || _), (_ || _); simpl;
    repeat match goal with
           | |- context [map Prefetch ?l] => destruct (Hp l) as [-> ->]
           | |- context [SwipeDeck.needMoreEffect ?p ?i] => destruct (Hn p i) as [-> ->]
           end; simpl; auto.
Qed.

(** A step either decides nothing and keeps index and batch (the deck
    may grow at its end), or it rates the card at the current index,
    appends the rating to the batch and advances the index by one. *)
Lemma step_cases W a c :
  let c' := fst (SwipeDeck.step W a c) in
  let evs := snd (SwipeDeck.step W a c) in
  (decisions evs = [] /\ flushes evs = [] /\
   SwipeDeck.ratingBatch (SwipeDeck.state c') = SwipeDeck.ratingBatch (SwipeDeck.state c) /\
   SwipeDeck.currentIndex (SwipeDeck.state c') = SwipeDeck.currentIndex (SwipeDeck.state c) /\
   SwipeDeck.totalSwipes (SwipeDeck.state c') = SwipeDeck.totalSwipes (SwipeDeck.state c) /\
   exists grown, SwipeDeck.images (SwipeDeck.props c')
                 = SwipeDeck.images (SwipeDeck.props c) ++ grown)
  \/
  (exists img rating,
     JS.index (SwipeDeck.images (SwipeDeck.props c))
              (SwipeDeck.currentIndex (SwipeDeck.state c)) = Some img /\
     imageId rating = id img /\
     decisions evs = [rating] /\
     flushes evs = flushes (snd (SwipeDeck.setRatingBatch
                                   (SwipeDeck.ratingBatch (SwipeDeck.state c)) rating)) /\
     SwipeDeck.ratingBatch (SwipeDeck.state c')
     = fst (SwipeDeck.setRatingBatch (SwipeDeck.ratingBatch (SwipeDeck.state c)) rating) /\
     SwipeDeck.currentIndex (SwipeDeck.state c')
     = SwipeDeck.currentIndex (SwipeDeck.state c) + 1 /\
     SwipeDeck.totalSwipes (SwipeDeck.state c')
     = SwipeDeck.totalSwipes (SwipeDeck.state c) + 1 /\
     SwipeDeck.props c' = SwipeDeck.props c).
Proof.
  cbv zeta. unfold SwipeDeck.step.
  destruct a as [now|event|event now|batch]; simpl.
  - left. destruct (effects_decide_nothing (SwipeDeck.PanBegin now) c
                      {| SwipeDeck.props := SwipeDeck.props c;
                         SwipeDeck.state := SwipeDeck.handleSwipeStart now (SwipeDeck.state c) |})
      as [Hd Hf].
    rewrite Hd, Hf. repeat split; try reflexivity. exists []. now rewrite app_nil_r.
  - left. destruct (effects_decide_nothing (SwipeDeck.PanUpdate event) c
                      {| SwipeDeck.props := SwipeDeck.props c;
                         SwipeDeck.state := SwipeDeck.onUpdate W event (SwipeDeck.state c) |})
      as [Hd Hf].
    rewrite Hd, Hf. repeat split; try reflexivity. exists []. now rewrite app_nil_r.
  - unfold SwipeDeck.onEnd.
    destruct (JS.gt _ _).
    + unfold SwipeDeck.handleSwipeComplete. simpl.
      destruct (JS.index _ _) as [img|] eqn:Himg.
      * right.
        match goal with
        | |- context [SwipeDeck.setRatingBatch ?b ?r] =>
            exists img, r; destruct (SwipeDeck.setRatingBatch b r) as [stored submitted] eqn:Eset
        end.
        simpl.
        match goal with
        | |- context [SwipeDeck.runEffects ?a ?x ?y] =>
            destruct (effects_decide_nothing a x y) as [Hd Hf]
        end.
        rewrite !decisions_app, !flushes_app, Hd, Hf.
        assert (Hsub : decisions submitted = []).
        { unfold SwipeDeck.setRatingBatch in Eset.
          destruct (10 <=? _); inversion Eset; reflexivity. }
        rewrite Hsub. simpl. rewrite !app_nil_r.
        repeat split; reflexivity.
      * left. simpl.
        match goal with
        | |- context [SwipeDeck.runEffects ?a ?x ?y] =>
            destruct (effects_decide_nothing a x y) as [Hd Hf]
        end.
        rewrite Hd, Hf. repeat split; try reflexivity. exists []. now rewrite app_nil_r.
    + left. simpl.
      match goal with
      | |- context [SwipeDeck.runEffects ?a ?x ?y] =>
          destruct (effects_decide_nothing a x y) as [Hd Hf]
      end.
      rewrite Hd, Hf. repeat split; try reflexivity. exists []. now rewrite app_nil_r.
  - left.
    match goal with
    | |- context [SwipeDeck.runEffects ?a ?x ?y] =>
        destruct (effects_decide_nothing a x y) as [Hd Hf]
    end.
    rewrite Hd, Hf. repeat split; try reflexivity. exists batch. reflexivity.
Qed.

(** ** Decisions, deck and index *)

Lemma firstn_succ_nth {A : Type} (l : list A) : forall (n : nat) (x : A),
  nth_error l n = Some x -> firstn (S n) l = firstn n l ++ [x].
Proof.
  induction l as [|y l IH]; intros n x H.
  - destruct n; discriminate H.
  - destruct n as [|n].
    + simpl in H. inversion H. reflexivity.
    + simpl in H. change (firstn (S (S n)) (y :: l)) with (y :: firstn (S n) l).
      rewrite (IH n x H). reflexivity.
Qed.

Lemma firstn_within_app {A : Type} (l grown : list A) (n : nat) :
  (n <= List.length l)%nat -> firstn n (l ++ grown) = firstn n l.
Proof.
  intro H. rewrite firstn_app.
  replace (n - List.length l)%nat with 0%nat by lia.
  simpl. apply app_nil_r.
Qed.

Section DeckInvariant.

Variable W : Q.

Lemma step_follows a c made :
  follows c made ->
  follows (fst (SwipeDeck.step W a c)) (made ++ decisions (snd (SwipeDeck.step W a c))).
Proof.
  intros (Hidx & Htot & Hlen & Hids).
  destruct (step_cases W a c)
    as [(Hd & _ & _ & Hi & Ht & grown & Hg)
       |(img & rating & Himg & Hid & Hd & _ & _ & Hi & Ht & Hp)];
    rewrite Hd; unfold follows.
  - rewrite app_nil_r, Hi, Ht, Hg.
    repeat split; try assumption.
    + unfold JS.length in *. rewrite length_app. lia.
    + rewrite firstn_within_app; [exact Hids|]. unfold JS.length in Hlen. lia.
  - rewrite Hi, Ht, Hp.
    pose proof (index_some _ _ _ Himg) as Hrange.
    unfold JS.length in *. rewrite length_app. simpl List.length.
    repeat split; try lia.
    unfold JS.index in Himg.
    replace (SwipeDeck.currentIndex (SwipeDeck.state c) <? 0) with false in Himg
      by (symmetry; apply Z.ltb_ge; lia).
    rewrite Hidx, Nat2Z.id in Himg.
    replace (List.length made + 1)%nat with (S (List.length made)) by lia.
    rewrite (firstn_succ_nth _ _ _ Himg), !map_app, Hids. simpl. now rewrite Hid.
Qed.

Lemma run_follows actions : forall c made,
  follows c made ->
  follows (fst (SwipeDeck.run W actions c))
          (made ++ decisions (snd (SwipeDeck.run W actions c))).
Proof.
  induction actions as [|a rest IH]; intros c made H; simpl.
  - now rewrite app_nil_r.
  - pose proof (step_follows a c made H) as Hs.
    destruct (SwipeDeck.step W a c) as [c1 evs1]. simpl in Hs.
    specialize (IH c1 _ Hs).
    destruct (SwipeDeck.run W rest c1) as [c2 evs2]. simpl in *.
    now rewrite decisions_app, app_assoc.
Qed.

Lemma append_batched batch made delivered rating :
  batched batch made delivered ->
  batched (fst (SwipeDeck.setRatingBatch batch rating)) (made ++ [rating])
          (delivered ++ flushes (snd (SwipeDeck.setRatingBatch batch rating))).
Proof.
  intros (Hlt & (gone & Hmade & Hgone) & Hnth).
  assert (Hlen : List.length made = (10 * List.length delivered + List.length batch)%nat).
  { rewrite Hmade, length_app. lia. }
  unfold batched, SwipeDeck.setRatingBatch, JS.length.
  rewrite (length_app batch). simpl List.length.
  destruct (10 <=? Z.of_nat (List.length batch + 1)) eqn:E;
    cbn [fst snd flushes flat_map app].
  - apply Z.leb_le in E.
    assert (Hnine : List.length batch = 9%nat) by lia.
    split; [simpl; lia|]. split.
    + exists (made ++ [rating]). rewrite app_nil_r. split; [reflexivity|].
      rewrite !length_app. simpl. lia.
    + intros j Hj. rewrite length_app in Hj. simpl in Hj.
      destruct (Nat.eq_dec j (List.length delivered)) as [->|Hne].
      * rewrite nth_error_app2 by lia. rewrite Nat.sub_diag.
        rewrite nth_error_app2 by lia.
        replace (10 * List.length delivered + 9 - List.length made)%nat with 0%nat by lia.
        reflexivity.
      * rewrite !nth_error_app1 by lia. apply Hnth. lia.
  - apply Z.leb_gt in E. rewrite app_nil_r.
    split; [rewrite length_app; simpl; lia|]. split.
    + exists gone. split; [|exact Hgone]. now rewrite Hmade, app_assoc.
    + intros j Hj. rewrite nth_error_app1 by lia. apply Hnth. exact Hj.
Qed.

Lemma run_batched actions : forall c made delivered,
  batched (SwipeDeck.ratingBatch (SwipeDeck.state c)) made delivered ->
  batched (SwipeDeck.ratingBatch (SwipeDeck.state (fst (SwipeDeck.run W actions c))))
          (made ++ decisions (snd (SwipeDeck.run W actions c)))
          (delivered ++ flushes (snd (SwipeDeck.run W actions c))).
Proof.
  induction actions as [|a rest IH]; intros c made delivered H; simpl.
  - now rewrite !app_nil_r.
  - assert (Hs : batched (SwipeDeck.ratingBatch (SwipeDeck.state (fst (SwipeDeck.step W a c))))
                         (made ++ decisions (snd (SwipeDeck.step W a c)))
                         (delivered ++ flushes (snd (SwipeDeck.step W a c)))).
    { destruct (step_cases W a c)
        as [(Hd & Hf & Hb & _)|(img & rating & _ & _ & Hd & Hf & Hb & _)];
        rewrite Hd, Hf, Hb.
      - now rewrite !app_nil_r.
      - now apply append_batched. }
    destruct (SwipeDeck.step W a c) as [c1 evs1]. simpl in Hs.
    specialize (IH c1 _ _ Hs).
    destruct (SwipeDeck.run W rest c1) as [c2 evs2]. simpl in *.
    now rewrite decisions_app, flushes_app, !app_assoc.
Qed.

End DeckInvariant.

(** X1: whatever the user and the parent do after the mount, the current
    index and the swipe counter equal the number of Decisions made, the
    index never passes the end of the deck, and the Decisions are those
    for the first [currentIndex] cards of the deck, in deck order: every
    consumed card is rated once, none is skipped. *)
Theorem one_decision_per_consumed_card (W : Q) (p : SwipeDeck.Props)
    (actions : list SwipeDeck.Action) :
  let result := SwipeDeck.run W actions (fst (SwipeDeck.mount p)) in
  let c := fst result in
  let made := decisions (snd result) in
  SwipeDeck.currentIndex (SwipeDeck.state c) = JS.length made /\
  SwipeDeck.totalSwipes (SwipeDeck.state c) = JS.length made /\
  0 <= SwipeDeck.currentIndex (SwipeDeck.state c)
    <= JS.length (SwipeDeck.images (SwipeDeck.props c)) /\
  map imageId made
  = map id (firstn (List.length made) (SwipeDeck.images (SwipeDeck.props c))).
Proof.
  cbv zeta.
  destruct (run_follows W actions (fst (SwipeDeck.mount p)) [])
    as (Hidx & Htot & Hlen & Hids).
  - unfold follows, JS.length. simpl. repeat split; try reflexivity. lia.
  - simpl in *. rewrite Hidx. repeat split; try assumption.
    unfold JS.length. lia.
Qed.

(** X2: after any sequence of actions the rating batch holds fewer than
    ten Decisions and is the tail of the Decisions made, in the order
    they were made; the Decisions before it come in groups of ten, one
    group per call of [onSwipe], and the call number [j] (from 0)
    delivered the Decision number [10 j + 9] and no other. *)
Theorem batch_is_fifo_tail_of_decisions (W : Q) (p : SwipeDeck.Props)
    (actions : list SwipeDeck.Action) :
  let result := SwipeDeck.run W actions (fst (SwipeDeck.mount p)) in
  let batch := SwipeDeck.ratingBatch (SwipeDeck.state (fst result)) in
  let made := decisions (snd result) in
  let delivered := flushes (snd result) in
  (List.length batch < 10)%nat /\
  (exists gone, made = gone ++ batch /\
                List.length gone = (10 * List.length delivered)%nat) /\
  (forall j, (j < List.length delivered)%nat ->
             nth_error delivered j = nth_error made (10 * j + 9)).
Proof.
  cbv zeta.
  apply (run_batched W actions (fst (SwipeDeck.mount p)) [] []).
  unfold batched. simpl. split; [lia|]. split.
  - exists []. split; reflexivity.
  - intros j Hj. lia.
Qed.

(** ** Gestures that do not commit *)

Lemma runEffects_quiet a before after :
  SwipeDeck.currentIndex (SwipeDeck.state after)
  = SwipeDeck.currentIndex (SwipeDeck.state before) ->
  SwipeDeck.props after = SwipeDeck.props before ->
  SwipeDeck.newImagesArray a = false ->
  SwipeDeck.runEffects a before after = [].
Proof.
  intros Hi Hp Ha. unfold SwipeDeck.runEffects.
  rewrite Hi, Hp, Ha, !Z.eqb_refl. reflexivity.
Qed.

Lemma step_stays W a c :
  staysOnCard W a ->
  let c' := fst (SwipeDeck.step W a c) in
  snd (SwipeDeck.step W a c) = [] /\
  SwipeDeck.props c' = SwipeDeck.props c /\
  SwipeDeck.currentIndex (SwipeDeck.state c') = SwipeDeck.currentIndex (SwipeDeck.state c) /\
  SwipeDeck.ratingBatch (SwipeDeck.state c') = SwipeDeck.ratingBatch (SwipeDeck.state c) /\
  SwipeDeck.totalSwipes (SwipeDeck.state c') = SwipeDeck.totalSwipes (SwipeDeck.state c) /\
  SwipeDeck.swipeStartTime (SwipeDeck.state c')
  = match a with
    | SwipeDeck.PanBegin now => now
    | _ => SwipeDeck.swipeStartTime (SwipeDeck.state c)
    end.
Proof.
  intro H. cbv zeta. unfold SwipeDeck.step.
  destruct a as [now|event|event now|batch]; simpl in *.
  - rewrite runEffects_quiet by reflexivity. repeat split; reflexivity.
  - rewrite runEffects_quiet by reflexivity. repeat split; reflexivity.
  - unfold SwipeDeck.onEnd. apply gt_false in H. rewrite H. simpl.
    rewrite runEffects_quiet by reflexivity. repeat split; reflexivity.
  - contradiction.
Qed.

(** X3: gestures that do not commit are invisible outside the card: a
    sequence of gesture starts, updates and releases at or below the
    threshold calls none of the parent's callbacks, issues no prefetch
    and no haptic impact, and leaves props, index, batch and swipe
    counter as they were. *)
Theorem uncommitted_gestures_have_no_effect (W : Q) (actions : list SwipeDeck.Action) :
  Forall (staysOnCard W) actions ->
  forall c,
    snd (SwipeDeck.run W actions c) = [] /\
    SwipeDeck.props (fst (SwipeDeck.run W actions c)) = SwipeDeck.props c /\
    SwipeDeck.currentIndex (SwipeDeck.state (fst (SwipeDeck.run W actions c)))
    = SwipeDeck.currentIndex (SwipeDeck.state c) /\
    SwipeDeck.ratingBatch (SwipeDeck.state (fst (SwipeDeck.run W actions c)))
    = SwipeDeck.ratingBatch (SwipeDeck.state c) /\
    SwipeDeck.totalSwipes (SwipeDeck.state (fst (SwipeDeck.run W actions c)))
    = SwipeDeck.totalSwipes (SwipeDeck.state c).
Proof.
  induction 1 as [|a rest Ha _ IH]; intro c; simpl.
  - repeat split; reflexivity.
  - destruct (step_stays W a c Ha) as (He & Hp & Hi & Hb & Ht & _).
    destruct (SwipeDeck.step W a c) as [c1 evs1]. simpl in *.
    destruct (IH c1) as (He2 & Hp2 & Hi2 & Hb2 & Ht2).
    destruct (SwipeDeck.run W rest c1) as [c2 evs2]. simpl in *.
    subst evs1 evs2. repeat split; congruence.
Qed.

Lemma uncommitted_gestures_have_no_effect_witness :
  snd (SwipeDeck.run Scenario.width
         [SwipeDeck.PanBegin 5; SwipeDeck.PanUpdate (Scenario.drag 60);
          SwipeDeck.PanEnd (Scenario.drag 100) 9]
         (Scenario.mounted 12)) = [].
Proof.
  apply (uncommitted_gestures_have_no_effect Scenario.width
           [SwipeDeck.PanBegin 5; SwipeDeck.PanUpdate (Scenario.drag 60);
            SwipeDeck.PanEnd (Scenario.drag 100) 9]).
  repeat constructor. vm_compute. discriminate.
Defined.

(** ** Time to decision *)

Lemma updates_keep W (updates : list PanEvent) : forall c,
  let c' := fst (SwipeDeck.run W (map SwipeDeck.PanUpdate updates) c) in
  snd (SwipeDeck.run W (map SwipeDeck.PanUpdate updates) c) = [] /\
  SwipeDeck.props c' = SwipeDeck.props c /\
  SwipeDeck.currentIndex (SwipeDeck.state c') = SwipeDeck.currentIndex (SwipeDeck.state c) /\
  SwipeDeck.swipeStartTime (SwipeDeck.state c') = SwipeDeck.swipeStartTime (SwipeDeck.state c).
Proof.
  induction updates as [|u rest IH]; intro c; cbn [map SwipeDeck.run].
  - repeat split; reflexivity.
  - destruct (step_stays W (SwipeDeck.PanUpdate u) c I) as (He & Hp & Hi & _ & _ & Hs).
    destruct (SwipeDeck.step W (SwipeDeck.PanUpdate u) c) as [c1 evs1]. simpl in *.
    destruct (IH c1) as (He2 & Hp2 & Hi2 & Hs2).
    destruct (SwipeDeck.run W (map SwipeDeck.PanUpdate rest) c1) as [c2 evs2]. simpl in *.
    subst evs1 evs2. repeat split; congruence.
Qed.

Lemma run_app W (first second : list SwipeDeck.Action) : forall c,
  SwipeDeck.run W (first ++ second) c
  = (fst (SwipeDeck.run W second (fst (SwipeDeck.run W first c))),
     snd (SwipeDeck.run W first c)
     ++ snd (SwipeDeck.run W second (fst (SwipeDeck.run W first c)))).
Proof.
  induction first as [|a rest IH]; intro c; simpl.
  - now destruct (SwipeDeck.run W second c).
  - destruct (SwipeDeck.step W a c) as [c1 evs1].
    rewrite IH.
    destruct (SwipeDeck.run W rest c1) as [c2 evs2]. simpl.
    now rewrite app_assoc.
Qed.

(** X4: a whole gesture on an existing card, started at time [t0],
    moved any number of times and released beyond the threshold at time
    [t1], makes exactly one Decision: the one for the current card, with
    the direction and velocity of the release, [timestamp = t1] and
    [hesitationTime = t1 - t0]. *)
Theorem gesture_records_time_from_start_to_release
    (W : Q) (c : SwipeDeck.Instance) (t0 t1 : Z) (updates : list PanEvent)
    (event : PanEvent) (img : ImageData) :
  (SwipeDeck.SWIPE_THRESHOLD W < Qabs (translationX event))%Q ->
  JS.index (SwipeDeck.images (SwipeDeck.props c))
           (SwipeDeck.currentIndex (SwipeDeck.state c)) = Some img ->
  decisions (snd (SwipeDeck.run W
                    (SwipeDeck.PanBegin t0 :: map SwipeDeck.PanUpdate updates
                       ++ [SwipeDeck.PanEnd event t1]) c))
  = [SwipeDeck.mkRating img (if JS.gt (translationX event) 0 then right else left)
       (velocityX event) t1 (t1 - t0)].
Proof.
  intros Hswipe Himg. cbn [SwipeDeck.run].
  destruct (step_stays W (SwipeDeck.PanBegin t0) c I) as (He & Hp & Hi & _ & _ & Hs).
  destruct (SwipeDeck.step W (SwipeDeck.PanBegin t0) c) as [c1 evs1]. simpl in *.
  rewrite run_app.
  destruct (updates_keep W updates c1) as (He2 & Hp2 & Hi2 & Hs2).
  set (c2 := fst (SwipeDeck.run W (map SwipeDeck.PanUpdate updates) c1)) in *.
  rewrite He, He2. simpl.
  unfold SwipeDeck.step, SwipeDeck.handle, SwipeDeck.onEnd.
  apply gt_true in Hswipe. rewrite Hswipe.
  assert (Himg2 : JS.index (SwipeDeck.images (SwipeDeck.props c2))
                    (SwipeDeck.currentIndex (SwipeDeck.state c2)) = Some img)
    by (rewrite Hp2, Hi2, Hp, Hi; exact Himg).
  match goal with
  | |- context [SwipeDeck.handleSwipeComplete ?p ?d ?v ?n ?s] =>
      destruct (handleSwipeComplete_present p d v n s img Himg2) as (_ & _ & Hdec & _);
      destruct (SwipeDeck.handleSwipeComplete p d v n s) as [st' evs0]
  end.
  simpl in Hdec. simpl.
  match goal with
  | |- context [SwipeDeck.runEffects ?a ?x ?y] =>
      destruct (effects_decide_nothing a x y) as [Hd _]
  end.
  rewrite app_nil_r, decisions_app, Hd, app_nil_r, Hdec, Hs2, Hs. reflexivity.
Qed.

Lemma gesture_records_time_from_start_to_release_witness :
  map hesitationTime
    (decisions (snd (SwipeDeck.run Scenario.width
                       (SwipeDeck.PanBegin 1000
                          :: map SwipeDeck.PanUpdate [Scenario.drag 40; Scenario.drag 150]
                          ++ [SwipeDeck.PanEnd (Scenario.drag 150) 1730])
                       (Scenario.mounted 12))))
  = [730].
Proof.
  rewrite (gesture_records_time_from_start_to_release Scenario.width (Scenario.mounted 12)
             1000 1730 [Scenario.drag 40; Scenario.drag 150] (Scenario.drag 150)
             (Scenario.card 0 universal)).
  - reflexivity.
  - vm_compute. reflexivity.
  - reflexivity.
Defined.

(** ** Feedback while the gesture is active *)



(** ** How much is prefetched *)

Lemma slice_length {A : Type} (deck : list A) (start end_ : Z) :
  0 <= start -> 0 <= end_ <= JS.length deck ->
  JS.length (JS.slice deck start end_) = Z.max 0 (end_ - Z.min start (JS.length deck)).
Proof.
  intros Hs He. unfold JS.slice, JS.relative, JS.length in *.
  replace (start <? 0) with false by (symmetry; apply Z.ltb_ge; lia).
  replace (end_ <? 0) with false by (symmetry; apply Z.ltb_ge; lia).
  rewrite length_firstn, length_skipn. lia.
Qed.

(** X6: with a non-negative index and lookahead, one run of the prefetch
    effect issues [min (N, length - currentIndex)] requests, and none
    when the index is at or past the end of the deck: never more than
    the lookahead, never more than what is left of the deck. *)
Theorem prefetch_request_count (p : SwipeDeck.Props) (idx : Z) :
  0 <= idx -> 0 <= SwipeDeck.prefetchBuffer p ->
  JS.length (prefetched (SwipeDeck.aggressivePrefetch p idx))
  = Z.max 0 (Z.min (SwipeDeck.prefetchBuffer p) (JS.length (SwipeDeck.images p) - idx)).
Proof.
  intros Hi Hn. rewrite aggressivePrefetch_issued.
  unfold JS.length at 1.
  rewrite (Permutation_length (sort_perm byTier _)).
  fold (JS.length (JS.slice (SwipeDeck.images p) (Z.max 0 idx)
                     (Z.min (JS.length (SwipeDeck.images p))
                        (idx + SwipeDeck.prefetchBuffer p)))).
  rewrite slice_length; unfold JS.length; lia.
Qed.

Lemma prefetch_request_count_witness :
  JS.length (prefetched (SwipeDeck.aggressivePrefetch
                           {| SwipeDeck.images := Scenario.deck 12;
                              SwipeDeck.prefetchBuffer := 50 |} 9)) = 3.
Proof.
  rewrite (prefetch_request_count
             {| SwipeDeck.images := Scenario.deck 12; SwipeDeck.prefetchBuffer := 50 |} 9).
  - reflexivity.
  - discriminate.
  - discriminate.
Defined.

(** ** The low-buffer signal outside swipes *)

(** X7: the mount asks for more content exactly when the deck holds at
    most ten images (an empty deck included).  When the parent appends a
    batch, index and batch stay as they are, nothing is decided, the
    whole window of the grown deck is prefetched again, and the signal
    is fired exactly when the batch is not empty and the buffer is still
    at most ten: an empty batch never renews the request. *)
Theorem signal_at_mount_and_on_append (W : Q) (p : SwipeDeck.Props)
    (c : SwipeDeck.Instance) (batch : list ImageData) :
  signals (snd (SwipeDeck.mount p))
  = (if JS.length (SwipeDeck.images p) <=? 10 then 1%nat else 0%nat) /\
  let c' := fst (SwipeDeck.step W (SwipeDeck.AppendImages batch) c) in
  let evs := snd (SwipeDeck.step W (SwipeDeck.AppendImages batch) c) in
  SwipeDeck.images (SwipeDeck.props c') = SwipeDeck.images (SwipeDeck.props c) ++ batch /\
  SwipeDeck.state c' = SwipeDeck.state c /\
  decisions evs = [] /\
  prefetched evs
  = prefetched (SwipeDeck.aggressivePrefetch (SwipeDeck.props c')
                  (SwipeDeck.currentIndex (SwipeDeck.state c))) /\
  signals evs
  = (if negb (JS.length batch =? 0)
        && (JS.length (SwipeDeck.images (SwipeDeck.props c)) + JS.length batch
            - SwipeDeck.currentIndex (SwipeDeck.state c) <=? 10)
     then 1%nat else 0%nat).
Proof.
  split.
  - unfold SwipeDeck.mount. simpl snd.
    rewrite signals_app. unfold SwipeDeck.aggressivePrefetch.
    rewrite signals_prefetch, signals_needMoreEffect. simpl.
    now rewrite Z.sub_0_r.
  - cbv zeta. unfold SwipeDeck.step. simpl.
    split; [reflexivity|]. split; [reflexivity|].
    unfold SwipeDeck.runEffects. simpl.
    rewrite Z.eqb_refl. simpl.
    assert (Hlen : JS.length (SwipeDeck.images (SwipeDeck.props c) ++ batch)
                   = JS.length (SwipeDeck.images (SwipeDeck.props c)) + JS.length batch).
    { unfold JS.length. rewrite length_app. lia. }
    assert (Hquiet : forall q i, prefetched (SwipeDeck.needMoreEffect q i) = []
                                 /\ decisions (SwipeDeck.needMoreEffect q i) = []).
    { intros q i. unfold SwipeDeck.needMoreEffect. destruct (_ <=? _); split; reflexivity. }
    assert (Hpre : forall q i, decisions (SwipeDeck.aggressivePrefetch q i) = []
                               /\ signals (SwipeDeck.aggressivePrefetch q i) = 0%nat).
    { intros q i. unfold SwipeDeck.aggressivePrefetch. split; [|apply signals_prefetch].
      induction (JS.sort _ _) as [|x l IH]; [reflexivity | exact IH]. }
    rewrite decisions_app, prefetched_app, signals_app.
    rewrite (proj1 (Hpre _ _)), (proj2 (Hpre _ _)).
    destruct (negb (JS.length (SwipeDeck.images (SwipeDeck.props c))
                    =? JS.length (SwipeDeck.images (SwipeDeck.props c) ++ batch))) eqn:Echg.
    + rewrite (proj1 (Hquiet _ _)), (proj2 (Hquiet _ _)), !app_nil_r.
      repeat split; try reflexivity.
      rewrite signals_needMoreEffect. simpl SwipeDeck.images.
      rewrite Hlen in *.
      apply negb_true_iff, Z.eqb_neq in Echg.
      replace (JS.length batch =? 0) with false by (symmetry; apply Z.eqb_neq; lia).
      reflexivity.
    + rewrite !app_nil_r. repeat split; try reflexivity.
      rewrite Hlen in Echg.
      apply negb_false_iff, Z.eqb_eq in Echg.
      replace (JS.length batch =? 0) with true by (symmetry; apply Z.eqb_eq; lia).
      reflexivity.
Qed.

(** ** The card after a committed release *)

(** X8: once the swipe-complete handler has run for a committed release
    on an existing card, the fly-off animation assigned by the release is
    overwritten: translation and rotation are 0, the scale is 1 and the
    card behind is back at 0.95, ready for the next card. *)
Theorem committed_release_resets_transform
    (W : Q) (p : SwipeDeck.Props) (event : PanEvent) (now : Z)
    (st : SwipeDeck.State) (img : ImageData) :
  (SwipeDeck.SWIPE_THRESHOLD W < Qabs (translationX event))%Q ->
  JS.index (SwipeDeck.images p) (SwipeDeck.currentIndex st) = Some img ->
  let st' := fst (SwipeDeck.onEnd W p event now st) in
  SwipeDeck.translateX st' = Assign 0 /\
  SwipeDeck.translateY st' = Assign 0 /\
  SwipeDeck.rotation st' = Assign 0 /\
  SwipeDeck.scale st' = Assign 1 /\
  SwipeDeck.backgroundScale st' = Assign 0.95 /\
  SwipeDeck.swipeStartTime st' = SwipeDeck.swipeStartTime st.
Proof.
  intros Hswipe Himg. cbv zeta. unfold SwipeDeck.onEnd.
  apply gt_true in Hswipe. rewrite Hswipe.
  unfold SwipeDeck.handleSwipeComplete. simpl. rewrite Himg.
  destruct (SwipeDeck.setRatingBatch _ _). simpl. repeat split; reflexivity.
Qed.

Lemma committed_release_resets_transform_witness :
  SwipeDeck.translateX
    (fst (SwipeDeck.onEnd Scenario.width (Scenario.props 5) (Scenario.drag 200) 100
            SwipeDeck.initial)) = Assign 0.
Proof.
  apply (committed_release_resets_transform Scenario.width (Scenario.props 5)
           (Scenario.drag 200) 100 SwipeDeck.initial (Scenario.card 0 universal)).
  - vm_compute. reflexivity.
  - reflexivity.
Defined.

(** * The decks of rapid-studio-clean *)

Lemma index_in_range {A : Type} (arr : list A) (i : Z) :
  0 <= i < JS.length arr -> exists x, JS.index arr i = Some x.
Proof.
  intro H. destruct (JS.index arr i) as [x|] eqn:E.
  - now exists x.
  - apply index_none in E. lia.
Qed.

(** X9: in the SwipeDeck of rapid-studio-clean a committed swipe always
    lands on a card: from any state with a non-negative index (even with
    an empty or exhausted deck), the state after the swipe has a card at
    its current index, either the next card of the same deck or the
    first of the freshly loaded sample images. *)
Theorem clean_swipe_lands_on_a_card (d : Direction) (st : Clean.SwipeDeck.State) :
  0 <= Clean.SwipeDeck.currentIndex st ->
  let st' := fst (Clean.SwipeDeck.onSwipeComplete d st) in
  (exists img, JS.index (Clean.SwipeDeck.images st') (Clean.SwipeDeck.currentIndex st')
               = Some img) /\
  ((Clean.SwipeDeck.images st' = Clean.SwipeDeck.images st /\
    Clean.SwipeDeck.currentIndex st' = Clean.SwipeDeck.currentIndex st + 1)
   \/
   (Clean.SwipeDeck.images st' = Clean.sampleImages /\
    Clean.SwipeDeck.currentIndex st' = 0 /\
    JS.length (Clean.SwipeDeck.images st) - 1 <= Clean.SwipeDeck.currentIndex st)).
Proof.
  intro H. cbv zeta. unfold Clean.SwipeDeck.onSwipeComplete.
  destruct (_ <? _) eqn:E; simpl.
  - apply Z.ltb_lt in E. split.
    + apply index_in_range. lia.
    + left. split; reflexivity.
  - apply Z.ltb_ge in E. split.
    + eexists. reflexivity.
    + right. repeat split; try reflexivity. exact E.
Qed.

Lemma clean_swipe_lands_on_a_card_witness :
  exists img,
    JS.index
      (Clean.SwipeDeck.images (fst (Clean.SwipeDeck.onSwipeComplete left Clean.SwipeDeck.loaded)))
      (Clean.SwipeDeck.currentIndex
         (fst (Clean.SwipeDeck.onSwipeComplete left Clean.SwipeDeck.loaded)))
    = Some img.
Proof.
  destruct (clean_swipe_lands_on_a_card left Clean.SwipeDeck.loaded) as [Hcard _].
  - discriminate.
  - exact Hcard.
Defined.

Lemma clean_rotation_clamped_witness :
  settled (Clean.SwipeDeck.rotate
             (Clean.SwipeDeck.onActive Scenario.width (Scenario.drag 500)
                Clean.SwipeDeck.loaded)) = 30%Q.
Proof.
  destruct (clean_rotation_clamped Scenario.width (Scenario.drag 500) Clean.SwipeDeck.loaded)
    as (_ & _ & Hhigh & _).
  - reflexivity.
  - apply Hhigh. reflexivity.
Defined.

Lemma safe_release_in_range W g st :
  0 <= Clean.SafeSwipeDeck.currentIndex st <= 4 ->
  0 <= Clean.SafeSwipeDeck.currentIndex
         (fst (Clean.SafeSwipeDeck.onPanResponderRelease W g st)) <= 4.
Proof.
  intro H. unfold Clean.SafeSwipeDeck.onPanResponderRelease.
  destruct (JS.gt _ _); [|exact H].
  change (JS.length Clean.SafeSwipeDeck.images - 1) with 4.
  destruct (_ <? 4) eqn:E; simpl; [apply Z.ltb_lt in E|]; lia.
Qed.

(** X10: in the SafeSwipeDeck the index stays on one of the five cards:
    from an index between 0 and 4, any sequence of releases, committed
    or not, ends at an index between 0 and 4, where a card exists. *)
Theorem safe_deck_index_stays_on_a_card
    (W : Q) (gestures : list Clean.SafeSwipeDeck.Gesture) (st : Clean.SafeSwipeDeck.State) :
  0 <= Clean.SafeSwipeDeck.currentIndex st <= 4 ->
  0 <= Clean.SafeSwipeDeck.currentIndex (safeReleases W gestures st) <= 4 /\
  exists img, JS.index Clean.SafeSwipeDeck.images
                (Clean.SafeSwipeDeck.currentIndex (safeReleases W gestures st)) = Some img.
Proof.
  intro H.
  assert (Hrange : 0 <= Clean.SafeSwipeDeck.currentIndex (safeReleases W gestures st) <= 4).
  { revert st H. induction gestures as [|g rest IH]; intros st H; simpl.
    - exact H.
    - apply IH. now apply safe_release_in_range. }
  split; [exact Hrange|].
  apply index_in_range. change (JS.length Clean.SafeSwipeDeck.images) with 5. lia.
Qed.

Lemma safe_deck_index_stays_on_a_card_witness :
  0 <= Clean.SafeSwipeDeck.currentIndex
         (safeReleases Scenario.width
            [Cases.swipe 200; Cases.swipe (-300); Cases.swipe 50; Cases.swipe 130;
             Cases.swipe 500; Cases.swipe 200; Cases.swipe 200]
            Clean.SafeSwipeDeck.initial) <= 4.
Proof.
  apply (safe_deck_index_stays_on_a_card Scenario.width
           [Cases.swipe 200; Cases.swipe (-300); Cases.swipe 50; Cases.swipe 130;
            Cases.swipe 500; Cases.swipe 200; Cases.swipe 200]
           Clean.SafeSwipeDeck.initial).
  vm_compute. split; discriminate.
Defined.

(** ** SimpleSwipeDeck *)

Lemma simple_release W g st :
  0 <= SimpleSwipeDeck.currentIndex st < 3 ->
  SimpleSwipeDeck.currentIndex (fst (SimpleSwipeDeck.onPanResponderRelease W g st))
  = (SimpleSwipeDeck.currentIndex st
     + (if JS.gt (Qabs (Clean.SafeSwipeDeck.dx g)) (JS.mul W (JS.double 0.3))
        then 1 else 0)) mod 3.
Proof.
  intro H. unfold SimpleSwipeDeck.onPanResponderRelease.
  destruct (JS.gt _ _); simpl.
  - change (JS.length SimpleSwipeDeck.images) with 3.
    apply Z.rem_mod_nonneg; lia.
  - rewrite Z.add_0_r. symmetry. apply Z.mod_small. exact H.
Qed.

(** X11: the SimpleSwipeDeck walks round its three cards: from an index
    between 0 and 2, after any sequence of releases the index is the
    start index plus the number of committed releases, modulo 3.  A
    release commits when [|dx|] is strictly above the double that the
    product [screenWidth * 0.3] evaluates to. *)
Theorem simple_deck_cycles
    (W : Q) (gestures : list Clean.SafeSwipeDeck.Gesture) (st : SimpleSwipeDeck.State) :
  0 <= SimpleSwipeDeck.currentIndex st < 3 ->
  SimpleSwipeDeck.currentIndex (SimpleSwipeDeck.releases W gestures st)
  = (SimpleSwipeDeck.currentIndex st
     + JS.length (filter (fun g => JS.gt (Qabs (Clean.SafeSwipeDeck.dx g))
                                       (JS.mul W (JS.double 0.3)))
                    gestures)) mod 3.
Proof.
  revert st. induction gestures as [|g rest IH]; intros st H.
  - simpl. rewrite Z.add_0_r. symmetry. apply Z.mod_small. exact H.
  - cbn [SimpleSwipeDeck.releases filter].
    pose proof (simple_release W g st H) as Hstep.
    rewrite IH.
    2:{ rewrite Hstep. apply Z.mod_pos_bound. lia. }
    rewrite Hstep.
    destruct (JS.gt _ _); unfold JS.length; cbn [List.length];
      rewrite Zplus_mod_idemp_l; f_equal; lia.
Qed.

Lemma simple_deck_cycles_witness :
  SimpleSwipeDeck.currentIndex
    (SimpleSwipeDeck.releases Scenario.width
       [Cases.swipe 200; Cases.swipe 10; Cases.swipe (-200); Cases.swipe 121]
       SimpleSwipeDeck.initial) = 0.
Proof.
  rewrite (simple_deck_cycles Scenario.width
             [Cases.swipe 200; Cases.swipe 10; Cases.swipe (-200); Cases.swipe 121]
             SimpleSwipeDeck.initial).
  - reflexivity.
  - split; [discriminate | reflexivity].
Defined.

(** * The hosting screen *)

Lemma showsDeck_nonempty (st : RapidStudioScreen.State) :
  RapidStudioScreen.images st <> [] -> RapidStudioScreen.showsDeck st = true.
Proof.
  intro H. unfold RapidStudioScreen.showsDeck, RapidStudioScreen.render.
  assert (Hlen : (JS.length (RapidStudioScreen.images st) =? 0) = false).
  { apply Z.eqb_neq. unfold JS.length.
    destruct (RapidStudioScreen.images st); [contradiction | simpl; lia]. }
  rewrite Hlen, !andb_false_r. reflexivity.
Qed.

Lemma handleNeedMoreImages_result response st :
  RapidStudioScreen.handleNeedMoreImages response st
  = ({| RapidStudioScreen.images := RapidStudioScreen.images st ++ delivered response;
        RapidStudioScreen.isLoading := false;
        RapidStudioScreen.connectionStatus := RapidStudioScreen.connectionStatus st |},
     if failed response then [RapidStudioScreen.ConnectionErrorAlert] else []).
Proof.
  unfold RapidStudioScreen.handleNeedMoreImages, RapidStudioScreen.fetchImages.
  destruct response; simpl; rewrite ?app_nil_r; reflexivity.
Qed.

(** X12: once the deck holds a card, a failing supplier cannot take it
    away, however the deck's requests overlap.  From a state with at
    least one image and any number of requests in flight, after any
    sequence of new requests and completions the deck is still shown,
    every request was accepted, the images are the old ones followed by
    the images of the successful responses in the order in which the
    responses completed (a failed or empty response adds nothing), the
    connection status is unchanged, and one alert was raised per failed
    response. *)
Theorem deck_survives_overlapping_requests
    (events : list Traffic) (pending : nat) (st : RapidStudioScreen.State) :
  RapidStudioScreen.images st <> [] ->
  let st' := fst (traffic events pending st) in
  let alerts := snd (traffic events pending st) in
  RapidStudioScreen.showsDeck st' = true /\
  RapidStudioScreen.images st'
  = RapidStudioScreen.images st ++ flat_map delivered (completed events pending) /\
  RapidStudioScreen.connectionStatus st' = RapidStudioScreen.connectionStatus st /\
  List.length alerts = List.length (filter failed (completed events pending)).
Proof.
  revert pending st.
  induction events as [|[|response] rest IH]; intros pending st H; cbv zeta.
  - simpl. rewrite app_nil_r. repeat split; try reflexivity.
    now apply showsDeck_nonempty.
  - cbn [traffic completed]. rewrite (showsDeck_nonempty st H).
    apply (IH (S pending) (RapidStudioScreen.beginFetch st)). exact H.
  - cbn [traffic completed]. destruct pending as [|fewer].
    + apply (IH O st H).
    + rewrite handleNeedMoreImages_result.
      match goal with
      | |- context [traffic rest fewer ?s] =>
          destruct (IH fewer s) as (Hshow & Himgs & Hstatus & Halerts);
          [ simpl; destruct (RapidStudioScreen.images st); [contradiction | discriminate]
          | destruct (traffic rest fewer s) as [st2 alerts2] ]
      end.
      simpl in *. rewrite Himgs, Hstatus, <- app_assoc, length_app, Halerts.
      repeat split; try assumption.
      destruct (failed response); reflexivity.
Qed.

Lemma deck_survives_overlapping_requests_witness :
  map id (RapidStudioScreen.images
            (fst (traffic
                    [Ask; Ask; Answer (RapidStudioScreen.HttpError 500); Ask;
                     Answer (RapidStudioScreen.Images
                               [Cases.raw 1 None; Cases.raw 2 (Some personal)]);
                     Answer RapidStudioScreen.Rejected]
                    0 Cases.oneCard)))
  = ["A"; "B"; "C"]%string.
Proof.
  destruct (deck_survives_overlapping_requests
              [Ask; Ask; Answer (RapidStudioScreen.HttpError 500); Ask;
               Answer (RapidStudioScreen.Images
                         [Cases.raw 1 None; Cases.raw 2 (Some personal)]);
               Answer RapidStudioScreen.Rejected]
              0 Cases.oneCard) as (_ & Himgs & _).
  - discriminate.
  - rewrite Himgs. reflexivity.
Defined.

Lemma needMoreCalls_status responses : forall st,
  RapidStudioScreen.connectionStatus (fst (RapidStudioScreen.needMoreCalls responses st))
  = RapidStudioScreen.connectionStatus st.
Proof.
  induction responses as [|r rest IH]; intro st; cbn [RapidStudioScreen.needMoreCalls].
  - reflexivity.
  - destruct (RapidStudioScreen.showsDeck st); [|apply IH].
    rewrite handleNeedMoreImages_result.
    match goal with
    | |- context [RapidStudioScreen.needMoreCalls rest ?s] =>
        specialize (IH s); destruct (RapidStudioScreen.needMoreCalls rest s)
    end.
    exact IH.
Qed.

Lemma needMoreCalls_hidden responses st :
  RapidStudioScreen.showsDeck st = false ->
  RapidStudioScreen.needMoreCalls responses st = (st, []).
Proof.
  intro H. induction responses as [|r rest IH]; cbn [RapidStudioScreen.needMoreCalls].
  - reflexivity.
  - now rewrite H.
Qed.

(** X13: the error screen is never shown.  If the health check fails,
    no request for images is made, no alert is raised, and the screen
    stays on the loading screen (with the status [error]) for the rest
    of the session, because the loading flag is never cleared.  If it
    succeeds, the status is [connected] for the rest of the session.
    In both cases neither the state reached nor the state during a
    further request renders the error screen. *)
Theorem error_screen_is_never_shown
    (health : RapidStudioScreen.HealthResponse) (first : RapidStudioScreen.ImagesResponse)
    (responses : list RapidStudioScreen.ImagesResponse) :
  let st := fst (RapidStudioScreen.session health first responses) in
  let alerts := snd (RapidStudioScreen.session health first responses) in
  RapidStudioScreen.render st <> RapidStudioScreen.ErrorScreen /\
  RapidStudioScreen.render (RapidStudioScreen.beginFetch st) <> RapidStudioScreen.ErrorScreen /\
  match health with
  | RapidStudioScreen.HealthOk =>
      RapidStudioScreen.connectionStatus st = RapidStudioScreen.connected
  | _ =>
      st = {| RapidStudioScreen.images := [];
              RapidStudioScreen.isLoading := true;
              RapidStudioScreen.connectionStatus := RapidStudioScreen.error |} /\
      alerts = [] /\
      RapidStudioScreen.render st = RapidStudioScreen.LoadingScreen RapidStudioScreen.error
  end.
Proof.
  cbv zeta. unfold RapidStudioScreen.session, RapidStudioScreen.initialize.
  destruct health; simpl.
  - rewrite handleNeedMoreImages_result.
    match goal with
    | |- context [RapidStudioScreen.needMoreCalls responses ?s] =>
        pose proof (needMoreCalls_status responses s) as Hstatus;
        destruct (RapidStudioScreen.needMoreCalls responses s) as [st2 alerts2]
    end.
    simpl in *.
    unfold RapidStudioScreen.render, RapidStudioScreen.beginFetch. simpl. rewrite Hstatus.
    repeat split; try reflexivity.
    + destruct (_ && _); discriminate.
    + destruct (_ =? _); discriminate.
  - rewrite needMoreCalls_hidden by reflexivity. simpl.
    repeat split; try reflexivity; discriminate.
  - rewrite needMoreCalls_hidden by reflexivity. simpl.
    repeat split; try reflexivity; discriminate.
Qed.

(** * Edge cases *)

(** X15: a negative lookahead does not switch prefetching off.  When the
    window would end before the start of the deck, the end handed to
    [slice] is negative and counts from the end of the array: with the
    index inside the deck, the effect issues [length + N] requests
    (none only if that is not positive), starting at the current
    card. *)
Theorem negative_lookahead_counts_from_the_end (p : SwipeDeck.Props) (idx : Z) :
  0 <= idx <= JS.length (SwipeDeck.images p) ->
  idx + SwipeDeck.prefetchBuffer p < 0 ->
  JS.length (prefetched (SwipeDeck.aggressivePrefetch p idx))
  = Z.max 0 (JS.length (SwipeDeck.images p) + SwipeDeck.prefetchBuffer p) /\
  Permutation (prefetched (SwipeDeck.aggressivePrefetch p idx))
    (firstn (Z.to_nat (JS.length (SwipeDeck.images p) + SwipeDeck.prefetchBuffer p))
       (skipn (Z.to_nat idx) (SwipeDeck.images p))).
Proof.
  intros Hi Hn. rewrite aggressivePrefetch_issued.
  assert (Hslice : JS.slice (SwipeDeck.images p) (Z.max 0 idx)
                     (Z.min (JS.length (SwipeDeck.images p))
                        (idx + SwipeDeck.prefetchBuffer p))
                   = firstn (Z.to_nat (JS.length (SwipeDeck.images p)
                                       + SwipeDeck.prefetchBuffer p))
                       (skipn (Z.to_nat idx) (SwipeDeck.images p))).
  { unfold JS.slice, JS.relative, JS.length in *.
    replace (Z.max 0 idx <? 0) with false by (symmetry; apply Z.ltb_ge; lia).
    replace (Z.min (Z.of_nat (List.length (SwipeDeck.images p)))
               (idx + SwipeDeck.prefetchBuffer p) <? 0) with true
      by (symmetry; apply Z.ltb_lt; lia).
    f_equal; [lia | f_equal; lia]. }
  rewrite Hslice. split.
  - unfold JS.length at 1.
    rewrite (Permutation_length (sort_perm byTier _)).
    rewrite length_firstn, length_skipn. unfold JS.length in *. lia.
  - apply sort_perm.
Qed.

Lemma negative_lookahead_counts_from_the_end_witness :
  JS.length (prefetched (SwipeDeck.aggressivePrefetch
                           {| SwipeDeck.images := Scenario.deck 12;
                              SwipeDeck.prefetchBuffer := -3 |} 2)) = 9.
Proof.
  destruct (negative_lookahead_counts_from_the_end
              {| SwipeDeck.images := Scenario.deck 12; SwipeDeck.prefetchBuffer := -3 |} 2)
    as [Hcount _].
  - split; discriminate.
  - reflexivity.
  - rewrite Hcount. reflexivity.
Defined.
